(** * djl_python/inputs.py: the request decoder and its content accessors

    A shallow embedding of [inputs.py]: the stream primitives
    ([retrieve_buffer], [retrieve_int], [retrieve_short], [retrieve_utf8]),
    the frame decoder [Input.read] and the accessors of class [Input].

    Stateful code is written in a state-and-exception monad. An exception
    leaves the state as it was when it was raised, as in Python. *)

From Stdlib Require Import ZArith NArith List Lia Bool Ascii String.
From Stdlib.Strings Require Import Byte.
From Equations Require Import Equations.
Import ListNotations.

Open Scope Z_scope.

(** ** Exceptions and the monad *)

Inductive error : Type :=
| ValueError_disconnected   (* ValueError("Connection disconnected") *)
| UnicodeDecodeError        (* bytes.decode on invalid UTF-8 *)
| StructError               (* struct.unpack on a buffer of the wrong size *)
| AttributeError            (* a method called on None *)
| IndexError                (* a list index out of range *)
| Exception_input_is_empty. (* Exception("input is empty.") *)

Inductive result (A : Type) : Type :=
| Ok (a : A)
| Raise (e : error).
Arguments Ok {A} a.
Arguments Raise {A} e.

Definition M (S A : Type) : Type := S -> result A * S.

Definition ret {S A} (a : A) : M S A := fun s => (Ok a, s).

Definition raise {S A} (e : error) : M S A := fun s => (Raise e, s).

Definition bind {S A B} (m : M S A) (k : A -> M S B) : M S B :=
  fun s => match m s with
           | (Ok a, s') => k a s'
           | (Raise e, s') => (Raise e, s')
           end.

Definition get_state {S} : M S S := fun s => (Ok s, s).

Definition modify {S} (f : S -> S) : M S unit := fun s => (Ok tt, f s).

Declare Scope py_scope.
Delimit Scope py_scope with py.
Notation "x <- m ;; k" := (bind m (fun x => k))
  (at level 61, m at next level, right associativity) : py_scope.
Notation "m ;;; k" := (bind m (fun _ => k))
  (at level 61, right associativity) : py_scope.

(** [for _ in range(n): body]; a negative [n] gives an empty range. *)
Fixpoint repeat_body {S} (n : nat) (body : M S unit) : M S unit :=
  match n with
  | O => ret tt
  | S n' => bind body (fun _ => repeat_body n' body)
  end.

Definition for_range {S} (n : Z) (body : M S unit) : M S unit :=
  repeat_body (Z.to_nat n) body.

(** ** Bytes, strings and the connection *)

Definition bytes : Type := list byte.

(** Python's [len]. *)
Definition len {A} (l : list A) : Z := Z.of_nat (List.length l).

Definition byte_val (b : byte) : Z := Z.of_N (Byte.to_N b).

(** A Python [str]: its code points. *)
Definition str : Type := list N.

(** A string literal of the source, as a [str]. *)
Definition py (s : string) : str := map N_of_ascii (list_ascii_of_string s).

Fixpoint str_eqb (a b : str) : bool :=
  match a, b with
  | [], [] => true
  | x :: a', y :: b' => N.eqb x y && str_eqb a' b'
  | _, _ => false
  end.

(** [a == b] on values that are a [str] or [None]. *)
Definition opt_str_eqb (a b : option str) : bool :=
  match a, b with
  | None, None => true
  | Some x, Some y => str_eqb x y
  | _, _ => false
  end.

(** [s.startswith(p)]. *)
Fixpoint startswith (s p : str) : bool :=
  match p, s with
  | [], _ => true
  | y :: p', x :: s' => N.eqb x y && startswith s' p'
  | _ :: _, [] => false
  end.

(** The socket is the caller's. It is modelled by the packets that are still
    to arrive, in order: [recv(bufsize)] returns the next packet, or its first
    [bufsize] bytes when it is longer, and returns no byte once the peer has
    closed (no packet left). An empty packet in the list stands for a
    [recv] that returns no byte. *)
Definition Conn : Type := list bytes.

Definition recv (bufsize : Z) : M Conn bytes :=
  fun conn =>
    match conn with
    | [] => (Ok [], [])
    | pkt :: rest =>
        let n := Z.to_nat bufsize in
        if (List.length pkt <=? n)%nat then (Ok pkt, rest)
        else (Ok (firstn n pkt), skipn n pkt :: rest)
    end.

(** ** Stream primitives *)

(** The [while length > 0] loop of [retrieve_buffer]: every turn that does
    not raise receives at least one byte, so [length] decreases. *)
Equations? retrieve_buffer_loop (length : Z) (data : bytes) (conn : Conn)
  : result bytes * Conn by wf (Z.to_nat length) lt :=
retrieve_buffer_loop length data conn with Z_gt_dec length 0 := {
  | right _ => (Ok data, conn)
  | left _ with recv length conn := {
    | (Raise e, conn') => (Raise e, conn')
    | (Ok pkt, conn') with Z.eq_dec (len pkt) 0 := {
      | left _ => (Raise ValueError_disconnected, conn')
      | right _ => retrieve_buffer_loop (length - len pkt) (data ++ pkt) conn' } } }.
Proof.
  unfold len in *. lia.
Qed.

Definition retrieve_buffer (length : Z) : M Conn bytes :=
  fun conn => retrieve_buffer_loop length [] conn.

Definition lift_result {S A} (r : result A) : M S A := fun s => (r, s).

(** [struct.unpack(">h", data)[0]]: two bytes, big-endian, two's complement. *)
Definition unpack_h (data : bytes) : result Z :=
  match data with
  | [b0; b1] =>
      let u := Z.lor (Z.shiftl (byte_val b0) 8) (byte_val b1) in
      Ok (if u <? 32768 then u else u - 65536)
  | _ => Raise StructError
  end.

(** [struct.unpack(">i", data)[0]]: four bytes, big-endian, two's complement. *)
Definition unpack_i (data : bytes) : result Z :=
  match data with
  | [b0; b1; b2; b3] =>
      let u := Z.lor (Z.shiftl (byte_val b0) 24)
                 (Z.lor (Z.shiftl (byte_val b1) 16)
                    (Z.lor (Z.shiftl (byte_val b2) 8) (byte_val b3))) in
      Ok (if u <? 2147483648 then u else u - 4294967296)
  | _ => Raise StructError
  end.

(** [data.decode("utf8")], strict: no overlong form, no surrogate, nothing
    above U+10FFFF, no truncated sequence. [None] is [UnicodeDecodeError]. *)
Definition in_range (lo hi b : N) : bool := (N.leb lo b && N.leb b hi)%bool.

Definition is_cont (b : N) : bool := in_range 128 191 b.

Definition low6 (b : N) : N := N.land b 63.

Fixpoint utf8_decode (bs : bytes) : option str :=
  match bs with
  | [] => Some []
  | c0 :: r0 =>
      let b0 := Byte.to_N c0 in
      if N.ltb b0 128 then option_map (cons b0) (utf8_decode r0)
      else if in_range 194 223 b0 then
        match r0 with
        | c1 :: r1 =>
            let b1 := Byte.to_N c1 in
            if is_cont b1
            then option_map (cons (N.lor (N.shiftl (N.land b0 31) 6) (low6 b1)))
                   (utf8_decode r1)
            else None
        | _ => None
        end
      else if in_range 224 239 b0 then
        match r0 with
        | c1 :: c2 :: r2 =>
            let b1 := Byte.to_N c1 in
            let b2 := Byte.to_N c2 in
            let lo := if N.eqb b0 224 then 160%N else 128%N in
            let hi := if N.eqb b0 237 then 159%N else 191%N in
            if (in_range lo hi b1 && is_cont b2)%bool
            then option_map
                   (cons (N.lor (N.shiftl (N.land b0 15) 12)
                            (N.lor (N.shiftl (low6 b1) 6) (low6 b2))))
                   (utf8_decode r2)
            else None
        | _ => None
        end
      else if in_range 240 244 b0 then
        match r0 with
        | c1 :: c2 :: c3 :: r3 =>
            let b1 := Byte.to_N c1 in
            let b2 := Byte.to_N c2 in
            let b3 := Byte.to_N c3 in
            let lo := if N.eqb b0 240 then 144%N else 128%N in
            let hi := if N.eqb b0 244 then 143%N else 191%N in
            if (in_range lo hi b1 && is_cont b2 && is_cont b3)%bool
            then option_map
                   (cons (N.lor (N.shiftl (N.land b0 7) 18)
                            (N.lor (N.shiftl (low6 b1) 12)
                               (N.lor (N.shiftl (low6 b2) 6) (low6 b3)))))
                   (utf8_decode r3)
            else None
        | _ => None
        end
      else None
  end.

Definition decode_utf8 {S} (data : bytes) : M S str :=
  match utf8_decode data with
  | Some s => ret s
  | None => raise UnicodeDecodeError
  end.

Definition retrieve_int : M Conn Z :=
  (data <- retrieve_buffer 4 ;;
   lift_result (unpack_i data))%py.

Definition retrieve_short : M Conn Z :=
  (data <- retrieve_buffer 2 ;;
   lift_result (unpack_h data))%py.

Definition retrieve_utf8 : M Conn (option str) :=
  (length <- retrieve_short ;;
   if length <? 0 then ret None
   else
     data <- retrieve_buffer length ;;
     s <- decode_utf8 data ;;
     ret (Some s))%py.

(** ** The containers *)

(** A Python [dict] with keys and values that are a [str] or [None]: the
    items in insertion order, no key twice. *)
Module Dict.

Definition t : Type := list (option str * option str).

(** [d[key] = val]: an existing key keeps its place and takes the new
    value, a new key goes last. *)
Fixpoint setitem (key val : option str) (d : t) : t :=
  match d with
  | [] => [(key, val)]
  | (k, v) :: rest =>
      if opt_str_eqb k key then (k, val) :: rest
      else (k, v) :: setitem key val rest
  end.

(** [d.get(key)]: the value, [None] when the key is absent. *)
Fixpoint get (key : option str) (d : t) : option str :=
  match d with
  | [] => None
  | (k, v) :: rest => if opt_str_eqb k key then v else get key rest
  end.

Definition mem (key : option str) (d : t) : bool :=
  existsb (fun kv => opt_str_eqb (fst kv) key) d.

End Dict.

(** Modelled from the spec: [pair_list.PairList], imported by [inputs.py]
    and not part of it. An ordered list of (key, value) pairs with
    [add] appending at the end, [get] returning the value of the first pair
    with the key ([None] when there is none), [value_at] the value at a
    position and [is_empty]. *)
Module PairList.

Definition t : Type := list (option str * bytes).

Definition add (key : option str) (value : bytes) (l : t) : t :=
  l ++ [(key, value)].

Fixpoint get (key : str) (l : t) : option bytes :=
  match l with
  | [] => None
  | (k, v) :: rest => if opt_str_eqb k (Some key) then Some v else get key rest
  end.

Definition value_at (index : nat) (l : t) : option bytes :=
  option_map snd (nth_error l index).

Definition is_empty (l : t) : bool :=
  match l with [] => true | _ :: _ => false end.

End PairList.

(** ** Class [Input] *)

(** What an accessor returns. [ast.literal_eval], [Image.open] and
    [from_nd_list] belong to other libraries and are called in tail position
    ([return f(...)]): the call itself, with its argument, stands for its
    outcome. That outcome may be a value or an exception of the library
    ([SyntaxError], [UnidentifiedImageError], ...), which is not described
    here: [Ok (LiteralEval s)] says that the accessor has reached the call
    [ast.literal_eval(s)], not that the call returns. *)
Inductive pyobject : Type :=
| Bytes (b : option bytes)         (* a buffer of the content, or None *)
| Str (s : str)
| LiteralEval (s : str)            (* ast.literal_eval(s) *)
| ImageOpen (b : option bytes)     (* Image.open(io.BytesIO(b)) *)
| FromNdList (b : option bytes).   (* from_nd_list(b) *)

Module Input.

Record t : Type := mk {
  function_name : option str;
  properties : Dict.t;
  content : PairList.t
}.

(** [__init__] *)
Definition init : t := mk None [] [].

Definition set_function_name (v : option str) (self : t) : t :=
  mk v (properties self) (content self).

Definition set_properties (d : Dict.t) (self : t) : t :=
  mk (function_name self) d (content self).

Definition set_content (c : PairList.t) (self : t) : t :=
  mk (function_name self) (properties self) c.

Definition get_function_name : M t (option str) :=
  fun self => (Ok (function_name self), self).

Definition get_properties : M t Dict.t :=
  fun self => (Ok (properties self), self).

Definition get_content : M t PairList.t :=
  fun self => (Ok (content self), self).

Section Accessors.

(** [str.lower]: the case table of the Python runtime. *)
Variable lower : str -> str.

(** [next((v for k, v in items if k.lower() == key.lower()), None)]:
    the items are visited in order up to the first match; a key that is
    [None] has no [lower]. *)
Fixpoint first_match (key : str) (items : Dict.t) : result (option str) :=
  match items with
  | [] => Ok None
  | (None, _) :: _ => Raise AttributeError
  | (Some k, v) :: rest =>
      if str_eqb (lower k) (lower key) then Ok v
      else first_match key rest
  end.

Definition get_property (key : str) : M t (option str) :=
  fun self => (first_match key (properties self), self).

Definition get_as_bytes (key : option str) : M t (option bytes) :=
  fun self =>
    if PairList.is_empty (content self)
    then (Raise Exception_input_is_empty, self)
    else
      match key with
      | Some k => (Ok (PairList.get k (content self)), self)
      | None =>
          match PairList.get (py "data") (content self) with
          | None =>
              match PairList.value_at 0 (content self) with
              | Some v => (Ok (Some v), self)
              | None => (Raise IndexError, self)
              end
          | Some ret => (Ok (Some ret), self)
          end
      end.

(** [b.decode("utf-8")] where [b] may be [None]. *)
Definition decode_obj (b : option bytes) : M t str :=
  match b with
  | None => raise AttributeError
  | Some data => decode_utf8 data
  end.

Definition get_as_string (key : option str) : M t str :=
  (b <- get_as_bytes key ;;
   decode_obj b)%py.

Definition get_as_json (key : option str) : M t pyobject :=
  (b <- get_as_bytes key ;;
   s <- decode_obj b ;;
   ret (LiteralEval s))%py.

(** The import of [PIL.Image] that opens the method is taken to succeed. *)
Definition get_as_image (key : option str) : M t pyobject :=
  (b <- get_as_bytes key ;;
   ret (ImageOpen b))%py.

Definition get_as_numpy (key : option str) : M t pyobject :=
  (b <- get_as_bytes key ;;
   ret (FromNdList b))%py.

(** [content_type is not None and content_type.startswith(prefix)]. *)
Definition starts (content_type : option str) (prefix : string) : bool :=
  match content_type with
  | None => false
  | Some c => startswith c (py prefix)
  end.

Definition get_data (key : option str) : M t pyobject :=
  (content_type <- get_property (py "content-type") ;;
   if opt_str_eqb content_type (Some (py "tensor/ndlist")) then
     get_as_numpy key
   else if opt_str_eqb content_type (Some (py "application/json")) then
     get_as_json key
   else if starts content_type "text/" then
     s <- get_as_string key ;; ret (Str s)
   else if starts content_type "image/" then
     get_as_image key
   else
     b <- get_as_bytes key ;; ret (Bytes b))%py.

Definition is_empty : M t bool :=
  fun self => (Ok (PairList.is_empty (content self)), self).

End Accessors.

(** [read] runs on the request and the connection. *)
Definition on_conn {A} (m : M Conn A) : M (t * Conn) A :=
  fun '(self, conn) =>
    let '(r, conn') := m conn in (r, (self, conn')).

Definition on_self (f : t -> t) : M (t * Conn) unit :=
  fun '(self, conn) => (Ok tt, (f self, conn)).

(** The body of the first loop of [read]. *)
Definition read_property : M (t * Conn) unit :=
  (key <- on_conn retrieve_utf8 ;;
   val <- on_conn retrieve_utf8 ;;
   on_self (fun self =>
     set_properties (Dict.setitem key val (properties self)) self))%py.

(** The body of the second loop of [read]. *)
Definition read_content : M (t * Conn) unit :=
  (key <- on_conn retrieve_utf8 ;;
   length <- on_conn retrieve_int ;;
   val <- on_conn (retrieve_buffer length) ;;
   on_self (fun self =>
     set_content (PairList.add key val (content self)) self))%py.

Definition read : M (t * Conn) unit :=
  (prop_size <- on_conn retrieve_short ;;
   for_range prop_size read_property ;;;
   content_size <- on_conn retrieve_short ;;
   for_range content_size read_content ;;;
   on_self (fun self =>
     set_function_name (Dict.get (Some (py "handler")) (properties self)) self))%py.

End Input.

(** ** The wire format (spec, section 6)

    Big-endian, two's complement, no padding. A frame is written here from
    its parts; the decoder above is compared with it. *)
Module Wire.

Definition byte_of (z : Z) : byte :=
  match Byte.of_N (Z.to_N (z mod 256)) with
  | Some b => b
  | None => x00
  end.

(** int16 and int32 in network byte order. *)
Definition pack_h (n : Z) : bytes :=
  [byte_of (Z.shiftr n 8); byte_of n].

Definition pack_i (n : Z) : bytes :=
  [byte_of (Z.shiftr n 24); byte_of (Z.shiftr n 16);
   byte_of (Z.shiftr n 8); byte_of n].

(** The signed value of two bytes in network byte order. *)
Definition int16 (b0 b1 : byte) : Z :=
  let u := byte_val b0 * 256 + byte_val b1 in
  if u <? 32768 then u else u - 65536.

(** [UTF8Str := Len:int16 Bytes:byte[Len]]; a negative [Len] is "no value"
    and no byte follows. *)
Inductive utf8str : Type :=
| Null (prefix : Z)
| Text (payload : bytes).

Definition ser_str (w : utf8str) : bytes :=
  match w with
  | Null prefix => pack_h prefix
  | Text payload => pack_h (len payload) ++ payload
  end.

Definition str_ok (w : utf8str) : bool :=
  match w with
  | Null prefix => (-32768 <=? prefix) && (prefix <? 0)
  | Text payload =>
      (len payload <=? 32767) &&
      match utf8_decode payload with Some _ => true | None => false end
  end.

(** The value a string of the wire stands for. *)
Definition value (w : utf8str) : option str :=
  match w with
  | Null _ => None
  | Text payload => utf8_decode payload
  end.

Record frame : Type := {
  props : list (utf8str * utf8str);
  parts : list (utf8str * Z * bytes)
}.

Definition ser_prop (p : utf8str * utf8str) : bytes :=
  ser_str (fst p) ++ ser_str (snd p).

Definition ser_part (p : utf8str * Z * bytes) : bytes :=
  let '(key, n, val) := p in ser_str key ++ pack_i n ++ val.

Definition ser_frame (f : frame) : bytes :=
  pack_h (len (props f)) ++ List.concat (map ser_prop (props f)) ++
  pack_h (len (parts f)) ++ List.concat (map ser_part (parts f)).

Definition prop_ok (p : utf8str * utf8str) : bool :=
  str_ok (fst p) && str_ok (snd p).

(** A content pair announces [n] bytes and carries them; no byte follows
    an [n] that is not positive. *)
Definition part_ok (p : utf8str * Z * bytes) : bool :=
  let '(key, n, val) := p in
  str_ok key && (-2147483648 <=? n) && (n <=? 2147483647) &&
  (len val =? Z.max 0 n).

Definition well_formed (f : frame) : bool :=
  (len (props f) <=? 32767) && forallb prop_ok (props f) &&
  (len (parts f) <=? 32767) && forallb part_ok (parts f).

(** What the frame holds once decoded. *)
Definition decoded_prop (p : utf8str * utf8str) : option str * option str :=
  (value (fst p), value (snd p)).

Definition decoded_part (p : utf8str * Z * bytes) : option str * bytes :=
  let '(key, _, val) := p in (value key, val).

End Wire.

(** A connection that has not been closed: every pending [recv] returns at
    least one byte. *)
Definition live (conn : Conn) : bool :=
  forallb (fun pkt => match pkt with [] => false | _ :: _ => true end) conn.

(** The connection delivers the bytes [s], in whatever packets. *)
Definition delivers (conn : Conn) (s : bytes) : Prop :=
  live conn = true /\ List.concat conn = s.

(** Assignments [d[k] = v] in sequence. *)
Definition assign_all (ps : list (option str * option str)) (d : Dict.t) : Dict.t :=
  fold_left (fun d kv => Dict.setitem (fst kv) (snd kv) d) ps d.

(** The last pair with the key, if any. *)
Definition last_assigned (key : option str) (ps : list (option str * option str))
  : option (option str * option str) :=
  find (fun kv => opt_str_eqb (fst kv) key) (rev ps).

(** One of the primitives raises [e] on [conn] and leaves [conn']. *)
Definition primitive_raises (conn : Conn) (e : error) (conn' : Conn) : Prop :=
  retrieve_short conn = (Raise e, conn') \/
  retrieve_int conn = (Raise e, conn') \/
  retrieve_utf8 conn = (Raise e, conn') \/
  exists n, retrieve_buffer n conn = (Raise e, conn').

(** [self'] is [self] after some assignments to [properties] and some
    pairs added to [content], with [function_name] untouched: what a decode
    has done to the request when it stops part-way. *)
Definition filled (self self' : Input.t) : Prop :=
  Input.function_name self' = Input.function_name self /\
  (exists ps, Input.properties self' = assign_all ps (Input.properties self)) /\
  (exists cs, Input.content self' = Input.content self ++ cs).

(** A step of the decoder either succeeds and leaves the request [filled]
    further, or a primitive has raised and the request is as it was. *)
Definition step_outcome (body : M (Input.t * Conn) unit) : Prop :=
  forall self conn r self' conn',
    body (self, conn) = (r, (self', conn')) ->
    (r = Ok tt /\ filled self self') \/
    (exists e, r = Raise e /\ filled self self' /\
               exists c, primitive_raises c e conn').

(** ** The primitive reads of a decode, taken alone

    What a decode asks of the connection, in the order of the wire format
    and without any request: a count, that many times a key and a value, a
    count, that many times a key, a length and that many bytes. The run
    stops at the first primitive that raises. It gives the pairs that were
    read completely before that, how it stopped, and the connection as the
    last primitive left it. *)

Fixpoint run_props (n : nat) (conn : Conn)
  : list (option str * option str) * result unit * Conn :=
  match n with
  | O => ([], Ok tt, conn)
  | S n' =>
      match retrieve_utf8 conn with
      | (Raise e, c) => ([], Raise e, c)
      | (Ok key, c1) =>
          match retrieve_utf8 c1 with
          | (Raise e, c) => ([], Raise e, c)
          | (Ok val, c2) =>
              let '(ps, r, c3) := run_props n' c2 in
              ((key, val) :: ps, r, c3)
          end
      end
  end.

Fixpoint run_parts (n : nat) (conn : Conn)
  : list (option str * bytes) * result unit * Conn :=
  match n with
  | O => ([], Ok tt, conn)
  | S n' =>
      match retrieve_utf8 conn with
      | (Raise e, c) => ([], Raise e, c)
      | (Ok key, c1) =>
          match retrieve_int c1 with
          | (Raise e, c) => ([], Raise e, c)
          | (Ok length, c2) =>
              match retrieve_buffer length c2 with
              | (Raise e, c) => ([], Raise e, c)
              | (Ok val, c3) =>
                  let '(cs, r, c4) := run_parts n' c3 in
                  ((key, val) :: cs, r, c4)
              end
          end
      end
  end.

Record run : Type := mk_run {
  run_properties : list (option str * option str);
  run_content : list (option str * bytes);
  stopped : result unit;
  left_conn : Conn
}.

Definition primitive_run (conn : Conn) : run :=
  match retrieve_short conn with
  | (Raise e, c) => mk_run [] [] (Raise e) c
  | (Ok prop_size, c1) =>
      let '(ps, r, c2) := run_props (Z.to_nat prop_size) c1 in
      match r with
      | Raise e => mk_run ps [] (Raise e) c2
      | Ok _ =>
          match retrieve_short c2 with
          | (Raise e, c) => mk_run ps [] (Raise e) c
          | (Ok content_size, c3) =>
              let '(cs, r', c4) := run_parts (Z.to_nat content_size) c3 in
              mk_run ps cs r' c4
          end
      end
  end.

(** ** The dispatch of [get_data] as a table (spec, sections 4.3 and 9) *)

Inductive variant : Type := NdList | Json | TextPlain | Image | RawBytes.

Definition extract (v : variant) (key : option str) : M Input.t pyobject :=
  match v with
  | NdList => Input.get_as_numpy key
  | Json => Input.get_as_json key
  | TextPlain => (s <- Input.get_as_string key ;; ret (Str s))%py
  | Image => Input.get_as_image key
  | RawBytes => (b <- Input.get_as_bytes key ;; ret (Bytes b))%py
  end.

(** The table applied to the value as it is stored. *)
Definition route (content_type : option str) : variant :=
  match content_type with
  | None => RawBytes
  | Some c =>
      if str_eqb c (py "tensor/ndlist") then NdList
      else if str_eqb c (py "application/json") then Json
      else if startswith c (py "text/") then TextPlain
      else if startswith c (py "image/") then Image
      else RawBytes
  end.

(** The table applied to the value without regard to case. *)
Definition route_caseless (lower : str -> str) (content_type : option str) : variant :=
  route (option_map lower content_type).

(** The six accessors, to speak of any of them. *)
Inductive accessor : Type :=
| GetData | GetAsBytes | GetAsString | GetAsJson | GetAsImage | GetAsNumpy.

Definition call (lower : str -> str) (a : accessor) (key : option str)
  : M Input.t pyobject :=
  match a with
  | GetData => Input.get_data lower key
  | GetAsBytes => (b <- Input.get_as_bytes key ;; ret (Bytes b))%py
  | GetAsString => (s <- Input.get_as_string key ;; ret (Str s))%py
  | GetAsJson => Input.get_as_json key
  | GetAsImage => Input.get_as_image key
  | GetAsNumpy => Input.get_as_numpy key
  end.

(** ** Concrete data for the examples *)

(** [str.lower] on ASCII text: [A-Z] go to [a-z], the rest stays. *)
Definition ascii_lower_cp (c : N) : N :=
  if (N.leb 65 c && N.leb c 90)%bool then (c + 32)%N else c.

Definition ascii_lower (s : str) : str := map ascii_lower_cp s.

(** A bytes literal. *)
Definition bytes_of (s : string) : bytes := list_byte_of_string s.

Definition wtext (s : string) : Wire.utf8str := Wire.Text (bytes_of s).

(** The first pair with the key, if any. *)
Definition first_value (key : str) (l : PairList.t) : option bytes :=
  option_map snd (find (fun p => opt_str_eqb (fst p) (Some key)) l).

(** A frame with a key written twice, a null content key and an empty
    content value, cut into two packets, with the start of a next frame
    behind it. *)
Definition sample_frame : Wire.frame :=
  {| Wire.props := [(wtext "a", wtext "1"); (wtext "a", wtext "2")];
     Wire.parts := [(Wire.Null (-1), 2, bytes_of "AB");
                    (wtext "data", 0, [])] |}.

Definition sample_conn : Conn :=
  [firstn 5 (Wire.ser_frame sample_frame);
   skipn 5 (Wire.ser_frame sample_frame) ++ bytes_of "next"].

(** Two properties announced, one delivered, then the peer closes. *)
Definition cut_conn : Conn :=
  [Wire.pack_h 2 ++ Wire.ser_str (wtext "a") ++ Wire.ser_str (wtext "1")].

(** A frame whose only property is written [Handler]. *)
Definition handler_conn : Conn :=
  [Wire.ser_frame {| Wire.props := [(wtext "Handler", wtext "f")];
                     Wire.parts := [] |}].

Definition handler_request : Input.t :=
  fst (snd (Input.read (Input.init, handler_conn))).

(** A request whose content type is written [Application/JSON]. *)
Definition json_request : Input.t :=
  Input.mk None
    [(Some (py "Content-Type"), Some (py "Application/JSON"))]
    [(Some (py "data"), bytes_of "{}")].

(** A request with content and no property. *)
Definition plain_request : Input.t :=
  Input.mk None [] [(Some (py "other"), bytes_of "X");
                    (Some (py "data"), bytes_of "Y")].

(** ** Notions used by the further properties *)

(** The signed value of four bytes in network byte order. *)
Definition int32_value (b0 b1 b2 b3 : byte) : Z :=
  let u := byte_val b0 * 16777216 + byte_val b1 * 65536 +
           byte_val b2 * 256 + byte_val b3 in
  if u <? 2147483648 then u else u - 4294967296.

(** No key of the dictionary is [None]. *)
Definition str_keys (d : Dict.t) : bool :=
  forallb (fun kv => match fst kv with Some _ => true | None => false end) d.

(** The first item whose key is [key] up to case, if any. *)
Definition first_caseless (lower : str -> str) (key : str) (d : Dict.t)
  : option (option str * option str) :=
  find (fun kv => match fst kv with
                  | Some k => str_eqb (lower k) (lower key)
                  | None => false
                  end) d.

(** Two live connections that carry the same bytes, cut into packets in
    two ways. *)
Definition same_stream (c1 c2 : Conn) : Prop :=
  live c1 = true /\ live c2 = true /\ List.concat c1 = List.concat c2.

(** A computation on the connection whose result does not depend on how
    the stream is cut into packets. *)
Definition packet_blind {A} (m : M Conn A) : Prop :=
  forall c1 c2,
    same_stream c1 c2 ->
    fst (m c1) = fst (m c2) /\ same_stream (snd (m c1)) (snd (m c2)).

(** The same for a computation on the request and the connection. *)
Definition packet_blind_on_request {A} (m : M (Input.t * Conn) A) : Prop :=
  forall self c1 c2,
    same_stream c1 c2 ->
    fst (m (self, c1)) = fst (m (self, c2)) /\
    fst (snd (m (self, c1))) = fst (snd (m (self, c2))) /\
    same_stream (snd (snd (m (self, c1)))) (snd (snd (m (self, c2)))).

(** [s] is the start of [t] and [t] goes on after it. *)
Definition strict_prefix (s t : bytes) : Prop :=
  exists u, u <> [] /\ t = s ++ u.

(** A step of the decoder that raises the disconnection, with nothing left
    to receive, on every live connection that carries only a start of
    [wire]. *)
Definition cut_raises {A} (m : M (Input.t * Conn) A) (wire : bytes) : Prop :=
  forall self conn s,
    delivers conn s -> strict_prefix s wire ->
    exists self',
      m (self, conn) = (Raise ValueError_disconnected, (self', [])).

(** The step reads [wire]: on a live connection that carries [wire] and
    then [rest] it returns a value that satisfies [Q] and leaves [rest]; on
    one that carries only a start of [wire] it raises the disconnection. *)
Definition reads {A} (m : M (Input.t * Conn) A) (wire : bytes)
           (Q : A -> Prop) : Prop :=
  (forall self conn rest,
     delivers conn (wire ++ rest) ->
     exists a self' conn',
       m (self, conn) = (Ok a, (self', conn')) /\
       delivers conn' rest /\ Q a) /\
  cut_raises m wire.

(** The request after the frame [f] has been decoded into [self]. *)
Definition decoded_into (f : Wire.frame) (self : Input.t) : Input.t :=
  let d := assign_all (map Wire.decoded_prop (Wire.props f))
             (Input.properties self) in
  Input.mk (Dict.get (Some (py "handler")) d) d
    (Input.content self ++ map Wire.decoded_part (Wire.parts f)).

(** The keys of a dictionary, in order. *)
Definition keys (d : Dict.t) : list (option str) := map fst d.

(** No property of the frame has a null key. *)
Definition text_keys (f : Wire.frame) : bool :=
  forallb (fun p => match fst p with
                    | Wire.Text _ => true
                    | Wire.Null _ => false
                    end) (Wire.props f).

(** A frame whose first property has a null key. *)
Definition null_key_frame : Wire.frame :=
  {| Wire.props := [(Wire.Null (-1), wtext "v");
                    (wtext "content-type", wtext "text/plain")];
     Wire.parts := [(wtext "data", 2, bytes_of "hi")] |}.

(** A frame with a content type, a text value and a second value. *)
Definition text_frame : Wire.frame :=
  {| Wire.props := [(wtext "Content-Type", wtext "text/plain")];
     Wire.parts := [(wtext "data", 5, bytes_of "hello");
                    (wtext "more", 1, bytes_of "!")] |}.

Definition text_request : Input.t :=
  Input.mk None
    [(Some (py "Content-Type"), Some (py "text/plain"))]
    [(Some (py "data"), bytes_of "hello"); (Some (py "more"), bytes_of "!")].

(** * Properties *)

(** ** The monad *)

Lemma bind_ok {S A B} (m : M S A) (k : A -> M S B) s a s' :
  m s = (Ok a, s') -> bind m k s = k a s'.
Proof. intros H. unfold bind. rewrite H. reflexivity. Qed.

Lemma bind_raise {S A B} (m : M S A) (k : A -> M S B) s e s' :
  m s = (Raise e, s') -> bind m k s = (Raise e, s').
Proof. intros H. unfold bind. rewrite H. reflexivity. Qed.

Lemma bind_inv {S A B} (m : M S A) (k : A -> M S B) s r s2 :
  bind m k s = (r, s2) ->
  (exists a s1, m s = (Ok a, s1) /\ k a s1 = (r, s2)) \/
  (exists e, m s = (Raise e, s2) /\ r = Raise e).
Proof.
  unfold bind. destruct (m s) as [[a | e] s1]; intros H.
  - left. exists a, s1. split; [reflexivity | exact H].
  - right. exists e. inversion H; subst. split; reflexivity.
Qed.

(** A count that is not positive gives no turn of the loop. *)
Lemma for_range_nonpositive {S} n (body : M S unit) s :
  n <= 0 -> for_range n body s = (Ok tt, s).
Proof.
  intros H. unfold for_range.
  replace (Z.to_nat n) with O by lia. reflexivity.
Qed.

(** ** [retrieve_buffer] *)

Lemma retrieve_buffer_loop_eq length data conn :
  retrieve_buffer_loop length data conn =
  if 0 <? length then
    match recv length conn with
    | (Raise e, conn') => (Raise e, conn')
    | (Ok pkt, conn') =>
        if len pkt =? 0 then (Raise ValueError_disconnected, conn')
        else retrieve_buffer_loop (length - len pkt) (data ++ pkt) conn'
    end
  else (Ok data, conn).
Proof.
  simp retrieve_buffer_loop.
  destruct (Z_gt_dec length 0) as [Hgt | Hle]; simpl.
  - assert (E : (0 <? length) = true) by lia. rewrite E.
    destruct (recv length conn) as [[pkt | e] conn']; simpl; [| reflexivity].
    destruct (Z.eq_dec (len pkt) 0) as [H0 | H0]; simpl.
    + rewrite H0. reflexivity.
    + assert (E0 : (len pkt =? 0) = false) by lia. rewrite E0. reflexivity.
  - assert (E : (0 <? length) = false) by lia. rewrite E. reflexivity.
Qed.

Lemma len_app {A} (a b : list A) : len (a ++ b) = len a + len b.
Proof. unfold len. rewrite length_app. lia. Qed.

Lemma len_nonneg {A} (a : list A) : 0 <= len a.
Proof. unfold len. lia. Qed.

Lemma len_zero_nil {A} (a : list A) : len a = 0 -> a = [].
Proof. destruct a; [reflexivity | unfold len; simpl; lia]. Qed.

Lemma recv_nil n : recv n [] = (Ok [], []).
Proof. reflexivity. Qed.

Lemma recv_whole n pkt rest :
  len pkt <= n -> recv n (pkt :: rest) = (Ok pkt, rest).
Proof.
  intros H. unfold recv, len in *.
  destruct (Nat.leb_spec (List.length pkt) (Z.to_nat n)); [reflexivity | lia].
Qed.

Lemma recv_part n pkt rest :
  0 <= n < len pkt ->
  recv n (pkt :: rest) =
  (Ok (firstn (Z.to_nat n) pkt), skipn (Z.to_nat n) pkt :: rest).
Proof.
  intros H. unfold recv, len in *.
  destruct (Nat.leb_spec (List.length pkt) (Z.to_nat n)); [lia | reflexivity].
Qed.

Lemma loop_done n data conn :
  n <= 0 -> retrieve_buffer_loop n data conn = (Ok data, conn).
Proof.
  intros H. rewrite retrieve_buffer_loop_eq.
  destruct (Z.ltb_spec 0 n); [lia | reflexivity].
Qed.

Lemma loop_step n data conn pkt conn' :
  0 < n -> recv n conn = (Ok pkt, conn') -> pkt <> [] ->
  retrieve_buffer_loop n data conn =
  retrieve_buffer_loop (n - len pkt) (data ++ pkt) conn'.
Proof.
  intros Hn Hr Hp. rewrite retrieve_buffer_loop_eq.
  destruct (Z.ltb_spec 0 n); [| lia]. rewrite Hr.
  destruct (Z.eqb_spec (len pkt) 0) as [E | E]; [| reflexivity].
  apply len_zero_nil in E. contradiction.
Qed.

Lemma loop_closed n data conn conn' :
  0 < n -> recv n conn = (Ok [], conn') ->
  retrieve_buffer_loop n data conn = (Raise ValueError_disconnected, conn').
Proof.
  intros Hn Hr. rewrite retrieve_buffer_loop_eq.
  destruct (Z.ltb_spec 0 n); [| lia]. rewrite Hr. reflexivity.
Qed.

Lemma live_cons pkt rest :
  live (pkt :: rest) = true <-> pkt <> [] /\ live rest = true.
Proof.
  unfold live. simpl. rewrite andb_true_iff.
  destruct pkt; split; intros [H1 H2]; split; congruence.
Qed.

(** On a live connection the loop returns the next [n] bytes of the stream,
    whatever the packets are. *)
Lemma loop_delivers conn : forall a b data,
  delivers conn (a ++ b) ->
  exists conn',
    retrieve_buffer_loop (len a) data conn = (Ok (data ++ a), conn') /\
    delivers conn' b.
Proof.
  induction conn as [| pkt rest IH]; intros a b data [Hl Hc].
  - simpl in Hc. symmetry in Hc. apply app_eq_nil in Hc as [-> ->].
    exists []. rewrite loop_done by (unfold len; simpl; lia).
    rewrite app_nil_r. repeat split.
  - apply live_cons in Hl as [Hp Hl]. simpl in Hc.
    destruct a as [| x a].
    + exists (pkt :: rest). rewrite loop_done by (unfold len; simpl; lia).
      rewrite app_nil_r. split; [reflexivity |].
      split; [apply live_cons; auto | exact Hc].
    + assert (Hpos : 0 < len (x :: a)) by (unfold len; simpl; lia).
      apply app_eq_app in Hc as [l [[E1 E2] | [E1 E2]]].
      * (* the packet holds more than is asked for *)
        destruct l as [| y l].
        { rewrite app_nil_r in E1. subst pkt. simpl in E2.
          rewrite (loop_step _ _ _ (x :: a) rest Hpos); [| apply recv_whole; lia | discriminate].
          rewrite Z.sub_diag.
          destruct (IH [] b (data ++ x :: a)) as [conn' [H1 H2]].
          { split; [exact Hl | symmetry; exact E2]. }
          exists conn'. change (len (@nil byte)) with 0 in H1.
          rewrite H1, app_nil_r. split; [reflexivity | exact H2]. }
        assert (Hn : Z.to_nat (len (x :: a)) = List.length (x :: a))
          by (unfold len; lia).
        rewrite (loop_step _ _ _ (x :: a) ((y :: l) :: rest) Hpos).
        { rewrite Z.sub_diag, loop_done by lia.
          exists ((y :: l) :: rest). split; [reflexivity |].
          split; [apply live_cons; split; [discriminate | exact Hl] |].
          simpl. rewrite E2. reflexivity. }
        { rewrite recv_part.
          - rewrite Hn, E1, firstn_app, Nat.sub_diag, firstn_all.
            rewrite skipn_app, Nat.sub_diag, skipn_all. simpl.
            rewrite app_nil_r. reflexivity.
          - rewrite E1, len_app. unfold len. simpl. lia. }
        { discriminate. }
      * (* the packet is a part of what is asked for *)
        rewrite E1, len_app.
        rewrite (loop_step _ _ _ pkt rest);
          [| rewrite <- len_app, <- E1; exact Hpos
           | apply recv_whole; pose proof (len_nonneg l); lia
           | exact Hp].
        replace (len pkt + len l - len pkt) with (len l) by lia.
        destruct (IH l b (data ++ pkt)) as [conn' [H1 H2]].
        { split; [exact Hl | exact E2]. }
        exists conn'. rewrite H1, app_assoc. split; [reflexivity | exact H2].
Qed.

(** A stream that ends before [n] bytes have come makes the loop raise. *)
Lemma loop_short_stream conn : forall n data,
  len (List.concat conn) < n ->
  exists conn',
    retrieve_buffer_loop n data conn = (Raise ValueError_disconnected, conn').
Proof.
  induction conn as [| pkt rest IH]; intros n data H.
  - exists []. apply loop_closed; [exact H | reflexivity].
  - simpl in H. rewrite len_app in H.
    pose proof (len_nonneg pkt). pose proof (len_nonneg (List.concat rest)).
    destruct pkt as [| x pkt].
    + exists rest. apply loop_closed; [lia | reflexivity].
    + rewrite (loop_step _ _ _ (x :: pkt) rest);
        [| lia | apply recv_whole; lia | discriminate].
      apply IH. lia.
Qed.

(** What the loop returns and what it leaves are the stream, cut after
    [n] bytes. *)
Lemma loop_returns conn : forall n data r conn',
  retrieve_buffer_loop n data conn = (Ok r, conn') ->
  exists a,
    r = data ++ a /\ len a = Z.max 0 n /\
    List.concat conn = a ++ List.concat conn'.
Proof.
  induction conn as [| pkt rest IH]; intros n data r conn' H.
  - destruct (Z.ltb_spec 0 n).
    + rewrite (loop_closed _ _ _ []) in H by (auto; lia). discriminate.
    + rewrite loop_done in H by lia. inversion H; subst.
      exists []. rewrite app_nil_r. repeat split. unfold len. simpl. lia.
  - destruct (Z.ltb_spec 0 n) as [Hn | Hn].
    2:{ rewrite loop_done in H by lia. inversion H; subst.
        exists []. rewrite app_nil_r. repeat split. unfold len. simpl. lia. }
    destruct pkt as [| x pkt].
    { rewrite (loop_closed _ _ _ rest) in H; [discriminate | lia | reflexivity]. }
    destruct (Z.le_gt_cases (len (x :: pkt)) n) as [Hle | Hgt].
    + rewrite (loop_step _ _ _ (x :: pkt) rest) in H;
        [| lia | apply recv_whole; lia | discriminate].
      apply IH in H as [a [Hr [Hlen Hc]]].
      exists ((x :: pkt) ++ a). rewrite app_assoc. split; [exact Hr |].
      split; [rewrite len_app; lia |].
      simpl. rewrite Hc, app_assoc. reflexivity.
    + rewrite (loop_step _ _ _ (firstn (Z.to_nat n) (x :: pkt))
                 (skipn (Z.to_nat n) (x :: pkt) :: rest)) in H;
        [| lia | apply recv_part; lia
         | destruct (Z.to_nat n) eqn:E; [lia | discriminate]].
      assert (Hf : len (firstn (Z.to_nat n) (x :: pkt)) = n).
      { unfold len in *. rewrite length_firstn. lia. }
      rewrite Hf, Z.sub_diag, loop_done in H by lia. inversion H; subst.
      exists (firstn (Z.to_nat n) (x :: pkt)).
      split; [reflexivity |]. split; [lia |].
      change (List.concat ((x :: pkt) :: rest))
        with ((x :: pkt) ++ List.concat rest).
      change (List.concat (skipn (Z.to_nat n) (x :: pkt) :: rest))
        with (skipn (Z.to_nat n) (x :: pkt) ++ List.concat rest).
      rewrite app_assoc, firstn_skipn. reflexivity.
Qed.

(** The loop raises nothing but the disconnection. *)
Lemma loop_raises conn : forall n data e conn',
  retrieve_buffer_loop n data conn = (Raise e, conn') ->
  e = ValueError_disconnected.
Proof.
  induction conn as [| pkt rest IH]; intros n data e conn' H.
  - destruct (Z.ltb_spec 0 n).
    + rewrite (loop_closed _ _ _ []) in H by (auto; lia). congruence.
    + rewrite loop_done in H by lia. discriminate.
  - destruct (Z.ltb_spec 0 n) as [Hn | Hn].
    2:{ rewrite loop_done in H by lia. discriminate. }
    destruct pkt as [| x pkt].
    { rewrite (loop_closed _ _ _ rest) in H; [congruence | lia | reflexivity]. }
    destruct (Z.le_gt_cases (len (x :: pkt)) n) as [Hle | Hgt].
    + rewrite (loop_step _ _ _ (x :: pkt) rest) in H;
        [| lia | apply recv_whole; lia | discriminate].
      eapply IH; exact H.
    + rewrite (loop_step _ _ _ (firstn (Z.to_nat n) (x :: pkt))
                 (skipn (Z.to_nat n) (x :: pkt) :: rest)) in H;
        [| lia | apply recv_part; lia
         | destruct (Z.to_nat n) eqn:E; [lia | discriminate]].
      assert (Hf : len (firstn (Z.to_nat n) (x :: pkt)) = n).
      { unfold len in *. rewrite length_firstn. lia. }
      rewrite Hf, Z.sub_diag, loop_done in H by lia. discriminate.
Qed.

Lemma retrieve_buffer_delivers conn a b :
  delivers conn (a ++ b) ->
  exists conn', retrieve_buffer (len a) conn = (Ok a, conn') /\ delivers conn' b.
Proof.
  intros H. destruct (loop_delivers conn a b [] H) as [conn' [H1 H2]].
  exists conn'. split; [exact H1 | exact H2].
Qed.

Lemma retrieve_buffer_done n conn :
  n <= 0 -> retrieve_buffer n conn = (Ok [], conn).
Proof. intros H. apply loop_done. exact H. Qed.

Lemma retrieve_buffer_raises n conn e conn' :
  retrieve_buffer n conn = (Raise e, conn') -> e = ValueError_disconnected.
Proof. apply loop_raises. Qed.

Lemma retrieve_buffer_returns n conn r conn' :
  retrieve_buffer n conn = (Ok r, conn') ->
  len r = Z.max 0 n /\ List.concat conn = r ++ List.concat conn'.
Proof.
  intros H. apply loop_returns in H as [a [Hr [Hl Hc]]].
  simpl in Hr. subst a. split; assumption.
Qed.

(** ** Integers on the wire *)

Lemma byte_val_range b : 0 <= byte_val b < 256.
Proof.
  unfold byte_val. pose proof (Byte.to_N_bounded b). lia.
Qed.

Lemma byte_val_byte_of z : byte_val (Wire.byte_of z) = z mod 256.
Proof.
  unfold Wire.byte_of, byte_val.
  pose proof (Z.mod_pos_bound z 256 ltac:(lia)) as Hm.
  destruct (Byte.of_N (Z.to_N (z mod 256))) as [b |] eqn:E.
  - apply Byte.to_of_N in E. rewrite E. lia.
  - apply Byte.of_N_None_iff in E. lia.
Qed.

Lemma land_shiftl_low a b k :
  0 <= k -> 0 <= b < 2 ^ k -> Z.land (Z.shiftl a k) b = 0.
Proof.
  intros Hk Hb. apply Z.bits_inj'. intros i Hi.
  rewrite Z.land_spec, Z.bits_0.
  destruct (Z.lt_ge_cases i k) as [Hlt | Hge].
  - rewrite Z.shiftl_spec_low by exact Hlt. reflexivity.
  - rewrite <- (Z.mod_small b (2 ^ k)) by exact Hb.
    rewrite Z.mod_pow2_bits_high by lia. apply andb_false_r.
Qed.

Lemma lor_shiftl_add a b k :
  0 <= k -> 0 <= b < 2 ^ k -> Z.lor (Z.shiftl a k) b = a * 2 ^ k + b.
Proof.
  intros Hk Hb.
  pose proof (Z.add_lor_land (Z.shiftl a k) b) as H.
  rewrite land_shiftl_low in H by assumption.
  rewrite Z.shiftl_mul_pow2 in H by exact Hk.
  rewrite Z.shiftl_mul_pow2 by exact Hk. lia.
Qed.

(** [unpack_h] gives the signed big-endian value of the two bytes. *)
Lemma unpack_h_int16 b0 b1 : unpack_h [b0; b1] = Ok (Wire.int16 b0 b1).
Proof.
  unfold unpack_h, Wire.int16.
  pose proof (byte_val_range b1).
  rewrite lor_shiftl_add by lia. reflexivity.
Qed.

Lemma unpack_h_pack_h n :
  -32768 <= n <= 32767 -> unpack_h (Wire.pack_h n) = Ok n.
Proof.
  intros Hn. unfold Wire.pack_h. rewrite unpack_h_int16. unfold Wire.int16.
  rewrite !byte_val_byte_of, Z.shiftr_div_pow2 by lia.
  change (2 ^ 8) with 256. f_equal.
  destruct (Z.ltb_spec (n / 256 mod 256 * 256 + n mod 256) 32768);
    Z.to_euclidean_division_equations; lia.
Qed.

Lemma unpack_i_pack_i n :
  -2147483648 <= n <= 2147483647 -> unpack_i (Wire.pack_i n) = Ok n.
Proof.
  intros Hn. unfold Wire.pack_i, unpack_i.
  rewrite !byte_val_byte_of, !Z.shiftr_div_pow2 by lia.
  change (2 ^ 8) with 256. change (2 ^ 16) with 65536.
  change (2 ^ 24) with 16777216.
  pose proof (Z.mod_pos_bound n 256 ltac:(lia)).
  pose proof (Z.mod_pos_bound (n / 256) 256 ltac:(lia)).
  pose proof (Z.mod_pos_bound (n / 65536) 256 ltac:(lia)).
  pose proof (Z.mod_pos_bound (n / 16777216) 256 ltac:(lia)).
  rewrite (lor_shiftl_add _ (n mod 256) 8) by lia.
  rewrite (lor_shiftl_add _ _ 16) by lia.
  rewrite (lor_shiftl_add _ _ 24) by lia.
  change (2 ^ 8) with 256. change (2 ^ 16) with 65536.
  change (2 ^ 24) with 16777216. f_equal.
  match goal with |- (if ?u <? _ then _ else _) = _ =>
    destruct (Z.ltb_spec u 2147483648) end;
    Z.to_euclidean_division_equations; lia.
Qed.

(** ** The primitives on a stream *)

Lemma retrieve_short_stream conn b0 b1 rest :
  delivers conn (b0 :: b1 :: rest) ->
  exists conn',
    retrieve_short conn = (Ok (Wire.int16 b0 b1), conn') /\ delivers conn' rest.
Proof.
  intros H.
  destruct (retrieve_buffer_delivers conn [b0; b1] rest H) as [conn' [H1 H2]].
  exists conn'. split; [| exact H2].
  unfold retrieve_short. change (len [b0; b1]) with 2 in H1.
  rewrite (bind_ok _ _ _ _ _ H1). unfold lift_result.
  rewrite unpack_h_int16. reflexivity.
Qed.

Lemma int16_pack_h n :
  -32768 <= n <= 32767 ->
  Wire.int16 (Wire.byte_of (Z.shiftr n 8)) (Wire.byte_of n) = n.
Proof.
  intros Hn. pose proof (unpack_h_pack_h n Hn) as H.
  unfold Wire.pack_h in H. rewrite unpack_h_int16 in H. congruence.
Qed.

Lemma retrieve_short_delivers conn n rest :
  -32768 <= n <= 32767 ->
  delivers conn (Wire.pack_h n ++ rest) ->
  exists conn', retrieve_short conn = (Ok n, conn') /\ delivers conn' rest.
Proof.
  intros Hn H. apply retrieve_short_stream in H as [conn' [H1 H2]].
  rewrite int16_pack_h in H1 by exact Hn. exists conn'. auto.
Qed.

Lemma retrieve_int_delivers conn n rest :
  -2147483648 <= n <= 2147483647 ->
  delivers conn (Wire.pack_i n ++ rest) ->
  exists conn', retrieve_int conn = (Ok n, conn') /\ delivers conn' rest.
Proof.
  intros Hn H.
  destruct (retrieve_buffer_delivers conn (Wire.pack_i n) rest H)
    as [conn' [H1 H2]].
  exists conn'. split; [| exact H2].
  unfold retrieve_int. change (len (Wire.pack_i n)) with 4 in H1.
  rewrite (bind_ok _ _ _ _ _ H1). unfold lift_result.
  rewrite unpack_i_pack_i by exact Hn. reflexivity.
Qed.

(** A negative prefix: null, and the two bytes of the prefix are all that
    is taken from the stream. *)
Lemma retrieve_utf8_null conn b0 b1 rest :
  delivers conn (b0 :: b1 :: rest) ->
  Wire.int16 b0 b1 < 0 ->
  exists conn', retrieve_utf8 conn = (Ok None, conn') /\ delivers conn' rest.
Proof.
  intros H Hneg. apply retrieve_short_stream in H as [conn' [H1 H2]].
  exists conn'. split; [| exact H2].
  unfold retrieve_utf8. rewrite (bind_ok _ _ _ _ _ H1).
  destruct (Z.ltb_spec (Wire.int16 b0 b1) 0); [reflexivity | lia].
Qed.

(** A prefix that is not negative: that many bytes are taken and decoded. *)
Lemma retrieve_utf8_text conn b0 b1 payload rest :
  delivers conn (b0 :: b1 :: payload ++ rest) ->
  len payload = Wire.int16 b0 b1 ->
  exists conn',
    retrieve_utf8 conn =
      (match utf8_decode payload with
       | Some s => Ok (Some s)
       | None => Raise UnicodeDecodeError
       end, conn') /\
    delivers conn' rest.
Proof.
  intros H Hlen. apply retrieve_short_stream in H as [conn1 [H1 H2]].
  apply retrieve_buffer_delivers in H2 as [conn2 [H3 H4]].
  exists conn2. split; [| exact H4].
  unfold retrieve_utf8. rewrite (bind_ok _ _ _ _ _ H1).
  pose proof (len_nonneg payload).
  destruct (Z.ltb_spec (Wire.int16 b0 b1) 0); [lia |].
  rewrite <- Hlen, (bind_ok _ _ _ _ _ H3).
  unfold decode_utf8. destruct (utf8_decode payload); reflexivity.
Qed.

Lemma retrieve_utf8_delivers conn w rest :
  Wire.str_ok w = true ->
  delivers conn (Wire.ser_str w ++ rest) ->
  exists conn',
    retrieve_utf8 conn = (Ok (Wire.value w), conn') /\ delivers conn' rest.
Proof.
  intros Hok H. destruct w as [prefix | payload]; simpl in *.
  - apply andb_true_iff in Hok as [Hlo Hhi].
    apply (retrieve_utf8_null conn (Wire.byte_of (Z.shiftr prefix 8))
             (Wire.byte_of prefix) rest H).
    rewrite int16_pack_h; lia.
  - apply andb_true_iff in Hok as [Hlen Hdec].
    pose proof (len_nonneg payload).
    destruct (retrieve_utf8_text conn (Wire.byte_of (Z.shiftr (len payload) 8))
                (Wire.byte_of (len payload)) payload rest H) as [conn' [H1 H2]].
    { rewrite int16_pack_h; lia. }
    exists conn'. split; [| exact H2].
    rewrite H1. destruct (utf8_decode payload); [reflexivity | discriminate].
Qed.

(** ** Keys *)

Lemma str_eqb_eq a : forall b, str_eqb a b = true <-> a = b.
Proof.
  induction a as [| x a IH]; intros [| y b]; simpl;
    try (split; [discriminate | congruence]); [tauto |].
  rewrite andb_true_iff, N.eqb_eq, IH. split.
  - intros [-> ->]. reflexivity.
  - intros E. inversion E. auto.
Qed.

Lemma opt_str_eqb_eq a b : opt_str_eqb a b = true <-> a = b.
Proof.
  destruct a as [a |], b as [b |]; simpl;
    try (split; [discriminate | congruence]); [| tauto].
  rewrite str_eqb_eq. split; congruence.
Qed.

Lemma opt_str_eqb_spec a b : reflect (a = b) (opt_str_eqb a b).
Proof.
  apply iff_reflect. symmetry. apply opt_str_eqb_eq.
Qed.

(** ** The dictionary: the last assignment to a key is what [get] finds *)

Lemma get_setitem key k v d :
  Dict.get key (Dict.setitem k v d) =
  if opt_str_eqb k key then v else Dict.get key d.
Proof.
  induction d as [| [k0 v0] d IH]; simpl.
  - reflexivity.
  - destruct (opt_str_eqb_spec k0 k) as [-> | Hk]; simpl.
    + destruct (opt_str_eqb k key); reflexivity.
    + rewrite IH.
      destruct (opt_str_eqb_spec k0 key) as [-> | Hk0];
        destruct (opt_str_eqb_spec k key) as [-> | Hk1];
        congruence.
Qed.

Lemma assign_all_snoc ps kv d :
  assign_all (ps ++ [kv]) d = Dict.setitem (fst kv) (snd kv) (assign_all ps d).
Proof. unfold assign_all. rewrite fold_left_app. reflexivity. Qed.

Lemma get_assign_all key ps : forall d,
  Dict.get key (assign_all ps d) =
  match last_assigned key ps with
  | Some kv => snd kv
  | None => Dict.get key d
  end.
Proof.
  induction ps as [| kv ps IH] using rev_ind; intros d.
  - reflexivity.
  - rewrite assign_all_snoc, get_setitem. unfold last_assigned.
    rewrite rev_app_distr. simpl.
    destruct (opt_str_eqb (fst kv) key); [reflexivity |].
    apply IH.
Qed.

(** ** The decoder on a stream *)

Lemma on_conn_ok {A} (m : M Conn A) self conn a conn' :
  m conn = (Ok a, conn') ->
  Input.on_conn m (self, conn) = (Ok a, (self, conn')).
Proof. intros H. unfold Input.on_conn. rewrite H. reflexivity. Qed.

Lemma on_conn_raise {A} (m : M Conn A) self conn e conn' :
  m conn = (Raise e, conn') ->
  Input.on_conn m (self, conn) = (Raise e, (self, conn')).
Proof. intros H. unfold Input.on_conn. rewrite H. reflexivity. Qed.

Lemma on_conn_inv {A} (m : M Conn A) self conn r self' conn' :
  Input.on_conn m (self, conn) = (r, (self', conn')) ->
  m conn = (r, conn') /\ self' = self.
Proof.
  unfold Input.on_conn. destruct (m conn) as [r0 c0]. intros H.
  inversion H; subst. split; reflexivity.
Qed.

Lemma read_property_delivers self conn p rest :
  Wire.prop_ok p = true ->
  delivers conn (Wire.ser_prop p ++ rest) ->
  exists conn',
    Input.read_property (self, conn) =
      (Ok tt,
       (Input.set_properties
          (Dict.setitem (Wire.value (fst p)) (Wire.value (snd p))
             (Input.properties self)) self, conn')) /\
    delivers conn' rest.
Proof.
  intros Hok H. apply andb_true_iff in Hok as [Hk Hv].
  unfold Wire.ser_prop in H. rewrite <- app_assoc in H.
  apply (retrieve_utf8_delivers _ _ _ Hk) in H as [c1 [H1 H]].
  apply (retrieve_utf8_delivers _ _ _ Hv) in H as [c2 [H2 H]].
  exists c2. split; [| exact H].
  unfold Input.read_property.
  rewrite (bind_ok _ _ _ _ _ (on_conn_ok _ self _ _ _ H1)).
  rewrite (bind_ok _ _ _ _ _ (on_conn_ok _ self _ _ _ H2)).
  reflexivity.
Qed.

Lemma read_content_delivers self conn p rest :
  Wire.part_ok p = true ->
  delivers conn (Wire.ser_part p ++ rest) ->
  exists conn',
    Input.read_content (self, conn) =
      (Ok tt,
       (Input.set_content
          (Input.content self ++ [Wire.decoded_part p]) self, conn')) /\
    delivers conn' rest.
Proof.
  destruct p as [[k n] val]. unfold Wire.part_ok, Wire.ser_part. intros Hok H.
  rewrite !andb_true_iff in Hok. destruct Hok as [[[Hk Hlo] Hhi] Hlen].
  rewrite <- !app_assoc in H.
  apply (retrieve_utf8_delivers _ _ _ Hk) in H as [c1 [H1 H]].
  apply retrieve_int_delivers in H as [c2 [H2 H]]; [| lia].
  assert (H3 : exists c3, retrieve_buffer n c2 = (Ok val, c3) /\ delivers c3 rest).
  { destruct (Z.le_gt_cases n 0) as [Hn | Hn].
    - assert (val = []) by (apply len_zero_nil; lia). subst val.
      exists c2. split; [apply retrieve_buffer_done; exact Hn | exact H].
    - replace n with (len val) by lia.
      apply retrieve_buffer_delivers. exact H. }
  destruct H3 as [c3 [H3 H4]].
  exists c3. split; [| exact H4].
  unfold Input.read_content.
  rewrite (bind_ok _ _ _ _ _ (on_conn_ok _ self _ _ _ H1)).
  rewrite (bind_ok _ _ _ _ _ (on_conn_ok _ self _ _ _ H2)).
  rewrite (bind_ok _ _ _ _ _ (on_conn_ok _ self _ _ _ H3)).
  reflexivity.
Qed.

Lemma properties_loop ps : forall self conn rest,
  forallb Wire.prop_ok ps = true ->
  delivers conn (List.concat (map Wire.ser_prop ps) ++ rest) ->
  exists conn',
    repeat_body (List.length ps) Input.read_property (self, conn) =
      (Ok tt,
       (Input.set_properties
          (assign_all (map Wire.decoded_prop ps) (Input.properties self)) self,
        conn')) /\
    delivers conn' rest.
Proof.
  induction ps as [| p ps IH]; intros self conn rest Hok H.
  - exists conn. split; [| exact H]. destruct self. reflexivity.
  - simpl in Hok. apply andb_true_iff in Hok as [Hp Hps].
    simpl in H. rewrite <- app_assoc in H.
    apply (read_property_delivers self _ _ _ Hp) in H as [c1 [H1 H]].
    destruct (IH (Input.set_properties
                    (Dict.setitem (Wire.value (fst p)) (Wire.value (snd p))
                       (Input.properties self)) self) c1 rest Hps H)
      as [c2 [H2 H3]].
    exists c2. split; [| exact H3].
    simpl. rewrite (bind_ok _ _ _ _ _ H1), H2. reflexivity.
Qed.

Lemma content_loop ps : forall self conn rest,
  forallb Wire.part_ok ps = true ->
  delivers conn (List.concat (map Wire.ser_part ps) ++ rest) ->
  exists conn',
    repeat_body (List.length ps) Input.read_content (self, conn) =
      (Ok tt,
       (Input.set_content
          (Input.content self ++ map Wire.decoded_part ps) self, conn')) /\
    delivers conn' rest.
Proof.
  induction ps as [| p ps IH]; intros self conn rest Hok H.
  - exists conn. split; [| exact H]. destruct self. simpl.
    rewrite app_nil_r. reflexivity.
  - simpl in Hok. apply andb_true_iff in Hok as [Hp Hps].
    simpl in H. rewrite <- app_assoc in H.
    apply (read_content_delivers self _ _ _ Hp) in H as [c1 [H1 H]].
    destruct (IH (Input.set_content
                    (Input.content self ++ [Wire.decoded_part p]) self)
                c1 rest Hps H) as [c2 [H2 H3]].
    exists c2. split; [| exact H3].
    simpl. rewrite (bind_ok _ _ _ _ _ H1), H2. simpl.
    rewrite <- app_assoc. reflexivity.
Qed.

(** ** Outcomes of the decoder *)

Lemma retrieve_short_raises conn e conn' :
  retrieve_short conn = (Raise e, conn') -> e = ValueError_disconnected.
Proof.
  unfold retrieve_short. intros H.
  apply bind_inv in H as [[data [c1 [H1 H2]]] | [e0 [H1 H2]]].
  - apply retrieve_buffer_returns in H1 as [Hlen _].
    destruct data as [| b0 [| b1 [| b2 data]]];
      try (unfold len in Hlen; simpl in Hlen; lia).
    rewrite unpack_h_int16 in H2. discriminate.
  - apply retrieve_buffer_raises in H1. congruence.
Qed.

Lemma retrieve_int_raises conn e conn' :
  retrieve_int conn = (Raise e, conn') -> e = ValueError_disconnected.
Proof.
  unfold retrieve_int. intros H.
  apply bind_inv in H as [[data [c1 [H1 H2]]] | [e0 [H1 H2]]].
  - apply retrieve_buffer_returns in H1 as [Hlen _].
    destruct data as [| b0 [| b1 [| b2 [| b3 [| b4 data]]]]];
      try (unfold len in Hlen; simpl in Hlen; lia).
    discriminate.
  - apply retrieve_buffer_raises in H1. congruence.
Qed.

Lemma retrieve_utf8_raises conn e conn' :
  retrieve_utf8 conn = (Raise e, conn') ->
  e = ValueError_disconnected \/ e = UnicodeDecodeError.
Proof.
  unfold retrieve_utf8. intros H.
  apply bind_inv in H as [[n [c1 [H1 H2]]] | [e0 [H1 H2]]].
  - destruct (n <? 0); [discriminate |].
    apply bind_inv in H2 as [[data [c2 [H2 H3]]] | [e0 [H2 H3]]].
    + unfold decode_utf8 in H3. destruct (utf8_decode data).
      * discriminate.
      * right. unfold bind, raise in H3. congruence.
    + apply retrieve_buffer_raises in H2. left. congruence.
  - apply retrieve_short_raises in H1. left. congruence.
Qed.

Lemma primitive_raises_kind conn e conn' :
  primitive_raises conn e conn' ->
  e = ValueError_disconnected \/ e = UnicodeDecodeError.
Proof.
  intros [H | [H | [H | [n H]]]].
  - left. eapply retrieve_short_raises; exact H.
  - left. eapply retrieve_int_raises; exact H.
  - eapply retrieve_utf8_raises; exact H.
  - left. eapply retrieve_buffer_raises; exact H.
Qed.

Lemma filled_refl self : filled self self.
Proof.
  split; [reflexivity |]. split.
  - exists []. reflexivity.
  - exists []. rewrite app_nil_r. reflexivity.
Qed.

Lemma filled_trans a b c : filled a b -> filled b c -> filled a c.
Proof.
  intros [F1 [[ps1 P1] [cs1 C1]]] [F2 [[ps2 P2] [cs2 C2]]].
  split; [congruence |]. split.
  - exists (ps1 ++ ps2). rewrite P2, P1. unfold assign_all.
    rewrite fold_left_app. reflexivity.
  - exists (cs1 ++ cs2). rewrite C2, C1, app_assoc. reflexivity.
Qed.

Lemma filled_property self k v :
  filled self
    (Input.set_properties (Dict.setitem k v (Input.properties self)) self).
Proof.
  split; [reflexivity |]. split.
  - exists [(k, v)]. reflexivity.
  - exists []. simpl. rewrite app_nil_r. reflexivity.
Qed.

Lemma filled_content self k v :
  filled self
    (Input.set_content (PairList.add k v (Input.content self)) self).
Proof.
  split; [reflexivity |]. split.
  - exists []. reflexivity.
  - exists [(k, v)]. reflexivity.
Qed.

Ltac on_conn_step H x c H1 :=
  apply bind_inv in H as [[x [[? c] [H1 H]]] | [? [H1 ->]]];
  [ apply on_conn_inv in H1 as [H1 ->]
  | apply on_conn_inv in H1 as [H1 ->]; right; eexists;
    split; [reflexivity |]; split; [apply filled_refl |]; eexists ].

Lemma read_property_outcome : step_outcome Input.read_property.
Proof.
  intros self conn r self' conn' H. unfold Input.read_property in H.
  on_conn_step H key c1 H1; [| right; right; left; exact H1].
  on_conn_step H val c2 H2; [| right; right; left; exact H2].
  inversion H; subst. left. split; [reflexivity | apply filled_property].
Qed.

Lemma read_content_outcome : step_outcome Input.read_content.
Proof.
  intros self conn r self' conn' H. unfold Input.read_content in H.
  on_conn_step H key c1 H1; [| right; right; left; exact H1].
  on_conn_step H n c2 H2; [| right; left; exact H2].
  on_conn_step H val c3 H3; [| right; right; right; exists n; exact H3].
  inversion H; subst. left. split; [reflexivity | apply filled_content].
Qed.

Lemma repeat_body_outcome body :
  step_outcome body -> forall n, step_outcome (repeat_body n body).
Proof.
  intros Hb n. induction n as [| n IH]; intros self conn r self' conn' H.
  - inversion H; subst. left. split; [reflexivity | apply filled_refl].
  - simpl in H. apply bind_inv in H as [[[] [[s1 c1] [H1 H]]] | [e [H1 ->]]].
    + apply Hb in H1 as [[_ F1] | [e [E _]]]; [| discriminate].
      apply IH in H as [[-> F2] | [e [-> [F2 P]]]].
      * left. split; [reflexivity | eapply filled_trans; eassumption].
      * right. exists e. split; [reflexivity |].
        split; [eapply filled_trans; eassumption | exact P].
    + apply Hb in H1 as [[E _] | [e0 [E [F P]]]]; [discriminate |].
      right. exists e. inversion E; subst. auto.
Qed.

Lemma read_outcome self conn r self' conn' :
  Input.read (self, conn) = (r, (self', conn')) ->
  (r = Ok tt /\
   exists self4,
     filled self self4 /\
     self' = Input.set_function_name
               (Dict.get (Some (py "handler")) (Input.properties self4)) self4) \/
  (exists e, r = Raise e /\ filled self self' /\
             exists c, primitive_raises c e conn').
Proof.
  intros H. unfold Input.read in H.
  on_conn_step H prop_size c1 H1; [| left; exact H1].
  apply bind_inv in H as [[[] [[s2 c2] [H2 H]]] | [e [H2 ->]]].
  2:{ apply (repeat_body_outcome _ read_property_outcome) in H2
        as [[E _] | [e0 [E [F P]]]]; [discriminate |].
      right. exists e. inversion E; subst. auto. }
  apply (repeat_body_outcome _ read_property_outcome) in H2
    as [[_ F2] | [e0 [E _]]]; [| discriminate].
  apply bind_inv in H as [[content_size [[s3 c3] [H3 H]]] | [e [H3 ->]]].
  2:{ apply on_conn_inv in H3 as [H3 ->]. right. exists e.
      split; [reflexivity |]. split; [exact F2 |].
      exists c2. left. exact H3. }
  apply on_conn_inv in H3 as [H3 ->].
  apply bind_inv in H as [[[] [[s4 c4] [H4 H]]] | [e [H4 ->]]].
  2:{ apply (repeat_body_outcome _ read_content_outcome) in H4
        as [[E _] | [e0 [E [F P]]]]; [discriminate |].
      right. exists e. inversion E; subst.
      split; [reflexivity |]. split; [eapply filled_trans; eassumption | exact P]. }
  apply (repeat_body_outcome _ read_content_outcome) in H4
    as [[_ F4] | [e0 [E _]]]; [| discriminate].
  inversion H; subst. left. split; [reflexivity |].
  exists s4. split; [eapply filled_trans; eassumption | reflexivity].
Qed.

(** ** The accessors *)

Lemma PairList_get_first key l : PairList.get key l = first_value key l.
Proof.
  unfold first_value. induction l as [| [k v] l IH]; simpl.
  - reflexivity.
  - destruct (opt_str_eqb k (Some key)); [reflexivity | exact IH].
Qed.

Lemma get_as_bytes_state key self :
  snd (Input.get_as_bytes key self) = self.
Proof.
  unfold Input.get_as_bytes.
  destruct (PairList.is_empty (Input.content self)); [reflexivity |].
  destruct key; [reflexivity |].
  destruct (PairList.get (py "data") (Input.content self)); [reflexivity |].
  destruct (PairList.value_at 0 (Input.content self)); reflexivity.
Qed.

Lemma decode_obj_state b self : snd (Input.decode_obj b self) = self.
Proof.
  unfold Input.decode_obj, decode_utf8.
  destruct b as [data |]; [| reflexivity].
  destruct (utf8_decode data); reflexivity.
Qed.

Lemma bind_state {S A B} (m : M S A) (k : A -> M S B) s :
  snd (m s) = s -> (forall a, snd (k a s) = s) -> snd (bind m k s) = s.
Proof.
  unfold bind. destruct (m s) as [[a | e] s1]; simpl; intros E Hk.
  - subst s1. apply Hk.
  - exact E.
Qed.

Lemma call_state lower a key self : snd (call lower a key self) = self.
Proof.
  destruct a; simpl;
    unfold Input.get_data, Input.get_as_string, Input.get_as_json,
      Input.get_as_image, Input.get_as_numpy;
    repeat first
      [ reflexivity
      | apply get_as_bytes_state
      | apply decode_obj_state
      | apply bind_state; [| intros ?]
      | match goal with |- context [if ?c then _ else _] => destruct c end ].
Qed.

Lemma get_data_route lower key self ct :
  Input.first_match lower (py "content-type") (Input.properties self) = Ok ct ->
  Input.get_data lower key self = extract (route ct) key self.
Proof.
  intros H. unfold Input.get_data.
  rewrite (bind_ok _ _ self ct self)
    by (unfold Input.get_property; rewrite H; reflexivity).
  destruct ct as [c |]; simpl; [| reflexivity].
  destruct (str_eqb c (py "tensor/ndlist")); [reflexivity |].
  destruct (str_eqb c (py "application/json")); [reflexivity |].
  unfold Input.starts.
  destruct (startswith c (py "text/")); [reflexivity |].
  destruct (startswith c (py "image/")); reflexivity.
Qed.

(** ** The decoder follows the run of its primitive reads *)

Lemma set_properties_same self :
  Input.set_properties (Input.properties self) self = self.
Proof. destruct self. reflexivity. Qed.

Lemma set_content_same self :
  Input.set_content (Input.content self) self = self.
Proof. destruct self. reflexivity. Qed.

Lemma read_property_eq self conn :
  Input.read_property (self, conn) =
  match retrieve_utf8 conn with
  | (Raise e, c) => (Raise e, (self, c))
  | (Ok key, c1) =>
      match retrieve_utf8 c1 with
      | (Raise e, c) => (Raise e, (self, c))
      | (Ok val, c2) =>
          (Ok tt,
           (Input.set_properties
              (Dict.setitem key val (Input.properties self)) self, c2))
      end
  end.
Proof.
  unfold Input.read_property, bind, Input.on_conn, Input.on_self.
  destruct (retrieve_utf8 conn) as [[key | e] c1]; [| reflexivity].
  destruct (retrieve_utf8 c1) as [[val | e] c2]; reflexivity.
Qed.

Lemma read_content_eq self conn :
  Input.read_content (self, conn) =
  match retrieve_utf8 conn with
  | (Raise e, c) => (Raise e, (self, c))
  | (Ok key, c1) =>
      match retrieve_int c1 with
      | (Raise e, c) => (Raise e, (self, c))
      | (Ok length, c2) =>
          match retrieve_buffer length c2 with
          | (Raise e, c) => (Raise e, (self, c))
          | (Ok val, c3) =>
              (Ok tt,
               (Input.set_content
                  (PairList.add key val (Input.content self)) self, c3))
          end
      end
  end.
Proof.
  unfold Input.read_content, bind, Input.on_conn, Input.on_self.
  destruct (retrieve_utf8 conn) as [[key | e] c1]; [| reflexivity].
  destruct (retrieve_int c1) as [[length | e] c2]; [| reflexivity].
  destruct (retrieve_buffer length c2) as [[val | e] c3]; reflexivity.
Qed.

Lemma properties_loop_run n : forall self conn,
  repeat_body n Input.read_property (self, conn) =
  (snd (fst (run_props n conn)),
   (Input.set_properties
      (assign_all (fst (fst (run_props n conn))) (Input.properties self)) self,
    snd (run_props n conn))).
Proof.
  induction n as [| n IH]; intros self conn.
  - simpl. rewrite set_properties_same. reflexivity.
  - simpl. unfold bind at 1. rewrite read_property_eq.
    destruct (retrieve_utf8 conn) as [[key | e] c1];
      [| simpl; rewrite set_properties_same; reflexivity].
    destruct (retrieve_utf8 c1) as [[val | e] c2];
      [| simpl; rewrite set_properties_same; reflexivity].
    rewrite IH. destruct (run_props n c2) as [[ps r] c3]. reflexivity.
Qed.

Lemma content_loop_run n : forall self conn,
  repeat_body n Input.read_content (self, conn) =
  (snd (fst (run_parts n conn)),
   (Input.set_content
      (Input.content self ++ fst (fst (run_parts n conn))) self,
    snd (run_parts n conn))).
Proof.
  induction n as [| n IH]; intros self conn.
  - simpl. rewrite app_nil_r, set_content_same. reflexivity.
  - simpl. unfold bind at 1. rewrite read_content_eq.
    destruct (retrieve_utf8 conn) as [[key | e] c1];
      [| simpl; rewrite app_nil_r, set_content_same; reflexivity].
    destruct (retrieve_int c1) as [[length | e] c2];
      [| simpl; rewrite app_nil_r, set_content_same; reflexivity].
    destruct (retrieve_buffer length c2) as [[val | e] c3];
      [| simpl; rewrite app_nil_r, set_content_same; reflexivity].
    rewrite IH. destruct (run_parts n c3) as [[cs r] c4]. simpl.
    unfold PairList.add. rewrite <- app_assoc. reflexivity.
Qed.

(** [read] ends as the run of its primitive reads ends, with the pairs of
    the run in the request and the connection where the run left it; only
    a run that went to its end sets [function_name]. *)
Lemma read_follows_run self conn :
  Input.read (self, conn) =
  (stopped (primitive_run conn),
   (Input.mk
      (match stopped (primitive_run conn) with
       | Ok _ =>
           Dict.get (Some (py "handler"))
             (assign_all (run_properties (primitive_run conn))
                (Input.properties self))
       | Raise _ => Input.function_name self
       end)
      (assign_all (run_properties (primitive_run conn))
         (Input.properties self))
      (Input.content self ++ run_content (primitive_run conn)),
    left_conn (primitive_run conn))).
Proof.
  unfold Input.read, primitive_run.
  destruct (retrieve_short conn) as [[prop_size | e] c1] eqn:E1.
  2:{ rewrite (bind_raise _ _ _ _ _ (on_conn_raise _ self _ _ _ E1)).
      simpl. rewrite app_nil_r. destruct self. reflexivity. }
  rewrite (bind_ok _ _ _ _ _ (on_conn_ok _ self _ _ _ E1)).
  unfold for_range at 1.
  pose proof (properties_loop_run (Z.to_nat prop_size) self c1) as L1.
  destruct (run_props (Z.to_nat prop_size) c1) as [[ps r] c2].
  simpl in L1. destruct r as [[] | e].
  2:{ rewrite (bind_raise _ _ _ _ _ L1). simpl. rewrite app_nil_r.
      destruct self. reflexivity. }
  rewrite (bind_ok _ _ _ _ _ L1).
  destruct (retrieve_short c2) as [[content_size | e] c3] eqn:E2.
  2:{ rewrite (bind_raise _ _ _ _ _ (on_conn_raise _ _ _ _ _ E2)).
      simpl. rewrite app_nil_r. destruct self. reflexivity. }
  rewrite (bind_ok _ _ _ _ _ (on_conn_ok _ _ _ _ _ E2)).
  unfold for_range.
  pose proof (content_loop_run (Z.to_nat content_size)
                (Input.set_properties
                   (assign_all ps (Input.properties self)) self) c3) as L2.
  destruct (run_parts (Z.to_nat content_size) c3) as [[cs r] c4].
  simpl in L2. destruct r as [[] | e].
  - rewrite (bind_ok _ _ _ _ _ L2). destruct self. reflexivity.
  - rewrite (bind_raise _ _ _ _ _ L2). destruct self. reflexivity.
Qed.

(** * The statements of the specification *)

(** C1. On every stream that carries a well-formed frame, in whatever
    packets, [read] succeeds and takes exactly the bytes of the frame: the
    properties are the pairs of the frame assigned in wire order, so that a
    key written twice holds its last value, and the content pairs (nullable
    key, bytes announced by the 32-bit length) are appended in wire order. *)
Theorem read_decodes_frame :
  forall (f : Wire.frame) (self : Input.t) (conn : Conn) (rest : bytes),
    Wire.well_formed f = true ->
    delivers conn (Wire.ser_frame f ++ rest) ->
    exists self' conn',
      Input.read (self, conn) = (Ok tt, (self', conn')) /\
      delivers conn' rest /\
      Input.properties self' =
        assign_all (map Wire.decoded_prop (Wire.props f)) (Input.properties self) /\
      (forall key,
         Dict.get key (Input.properties self') =
         match last_assigned key (map Wire.decoded_prop (Wire.props f)) with
         | Some kv => snd kv
         | None => Dict.get key (Input.properties self)
         end) /\
      Input.content self' =
        Input.content self ++ map Wire.decoded_part (Wire.parts f).
Proof.
  intros f self conn rest Hwf H. unfold Wire.well_formed in Hwf.
  rewrite !andb_true_iff in Hwf. destruct Hwf as [[[Hn1 Hps] Hn2] Hcs].
  apply Z.leb_le in Hn1, Hn2.
  unfold Wire.ser_frame in H. rewrite <- !app_assoc in H.
  pose proof (len_nonneg (Wire.props f)) as Hp0.
  pose proof (len_nonneg (Wire.parts f)) as Hc0.
  apply retrieve_short_delivers in H as [c1 [H1 H]]; [| lia].
  destruct (properties_loop _ self _ _ Hps H) as [c2 [H2 H3]].
  apply retrieve_short_delivers in H3 as [c3 [H4 H5]]; [| lia].
  rewrite <- (app_nil_r (List.concat (map Wire.ser_part (Wire.parts f)))) in H5.
  rewrite <- app_assoc in H5. simpl in H5.
  destruct (content_loop _
              (Input.set_properties
                 (assign_all (map Wire.decoded_prop (Wire.props f))
                    (Input.properties self)) self) _ _ Hcs H5)
    as [c4 [H6 H7]].
  eexists. exists c4. split; [| split; [exact H7 |]].
  - unfold Input.read.
    rewrite (bind_ok _ _ _ _ _ (on_conn_ok _ self _ _ _ H1)).
    unfold for_range, len. rewrite !Nat2Z.id.
    rewrite (bind_ok _ _ _ _ _ H2).
    rewrite (bind_ok _ _ _ _ _ (on_conn_ok _ _ _ _ _ H4)).
    unfold len. rewrite Nat2Z.id, (bind_ok _ _ _ _ _ H6). reflexivity.
  - simpl. split; [reflexivity |]. split; [| reflexivity].
    intros key. apply get_assign_all.
Qed.

Lemma read_decodes_frame_witness :
  exists self' conn',
    Input.read (Input.init, sample_conn) = (Ok tt, (self', conn')) /\
    delivers conn' (bytes_of "next") /\
    Input.properties self' =
      assign_all (map Wire.decoded_prop (Wire.props sample_frame)) [] /\
    (forall key,
       Dict.get key (Input.properties self') =
       match last_assigned key (map Wire.decoded_prop (Wire.props sample_frame)) with
       | Some kv => snd kv
       | None => Dict.get key []
       end) /\
    Input.content self' = [] ++ map Wire.decoded_part (Wire.parts sample_frame).
Proof.
  apply (read_decodes_frame sample_frame Input.init sample_conn (bytes_of "next")).
  - vm_compute. reflexivity.
  - split; vm_compute; reflexivity.
Defined.

(** The decoded sample: the key written twice holds its last value. *)
Example read_sample :
  Input.read (Input.init, sample_conn) =
  (Ok tt,
   (Input.mk None
      [(Some (py "a"), Some (py "2"))]
      [(None, bytes_of "AB"); (Some (py "data"), [])],
    [bytes_of "next"])).
Proof. vm_compute. reflexivity. Qed.

(** C2, as the specification states it, fails: a decode that fails is not
    all-or-nothing. Two properties are announced, one arrives and the peer
    closes: [read] raises, and the property that arrived is in the
    request. *)
Lemma read_failure_leaves_partial_state :
  fst (Input.read (Input.init, cut_conn)) = Raise ValueError_disconnected /\
  Input.properties (fst (snd (Input.read (Input.init, cut_conn)))) =
    [(Some (py "a"), Some (py "1"))] /\
  fst (snd (Input.read (Input.init, cut_conn))) <> Input.init.
Proof.
  split; [vm_compute; reflexivity |].
  split; [vm_compute; reflexivity |].
  vm_compute. discriminate.
Qed.

(** C2, amended. Whenever a primitive read of the decode raises, [read]
    raises the same exception at once: the connection is as the failing
    primitive left it, so nothing is read after it, and [function_name] is
    as it was. The request is not rolled back: [properties] has exactly the
    assignments of the pairs read before the failure, in their order, and
    [content] exactly the pairs read before the failure, appended in their
    order. The exception is the disconnection or the UTF-8 decode error. *)
Theorem read_failure_propagates :
  forall (self : Input.t) (conn : Conn) (e : error),
    stopped (primitive_run conn) = Raise e ->
    Input.read (self, conn) =
      (Raise e,
       (Input.mk (Input.function_name self)
          (assign_all (run_properties (primitive_run conn))
             (Input.properties self))
          (Input.content self ++ run_content (primitive_run conn)),
        left_conn (primitive_run conn))) /\
    (e = ValueError_disconnected \/ e = UnicodeDecodeError).
Proof.
  intros self conn e H.
  assert (E : Input.read (self, conn) =
              (Raise e,
               (Input.mk (Input.function_name self)
                  (assign_all (run_properties (primitive_run conn))
                     (Input.properties self))
                  (Input.content self ++ run_content (primitive_run conn)),
                left_conn (primitive_run conn)))).
  { pose proof (read_follows_run self conn) as R.
    rewrite H in R. exact R. }
  split; [exact E |].
  apply read_outcome in E as [[E _] | [e0 [E [_ [c R]]]]]; [discriminate |].
  inversion E; subst e0. eapply primitive_raises_kind; exact R.
Qed.

Lemma read_failure_propagates_witness :
  Input.read (Input.init, cut_conn) =
    (Raise ValueError_disconnected,
     (Input.mk (Input.function_name Input.init)
        (assign_all (run_properties (primitive_run cut_conn))
           (Input.properties Input.init))
        (Input.content Input.init ++ run_content (primitive_run cut_conn)),
      left_conn (primitive_run cut_conn))) /\
  (ValueError_disconnected = ValueError_disconnected \/
   ValueError_disconnected = UnicodeDecodeError).
Proof.
  apply (read_failure_propagates Input.init cut_conn ValueError_disconnected).
  vm_compute. reflexivity.
Defined.

(** The run on the connection that is cut after one property: the pair
    that came is kept, and nothing is left to receive. *)
Example primitive_run_cut :
  primitive_run cut_conn =
  mk_run [(Some (py "a"), Some (py "1"))] []
    (Raise ValueError_disconnected) [].
Proof. vm_compute. reflexivity. Qed.

(** C3, as the specification states it, fails: the lookup of [handler] is
    exact. A frame whose only property is written [Handler] decodes, the
    case-insensitive lookup finds its value, and [function_name] is
    [None]. *)
Lemma function_name_ignores_other_case :
  fst (Input.read (Input.init, handler_conn)) = Ok tt /\
  fst (Input.get_property ascii_lower (py "handler") handler_request) =
    Ok (Some (py "f")) /\
  Input.function_name handler_request = None.
Proof.
  split; [vm_compute; reflexivity |].
  split; vm_compute; reflexivity.
Qed.

(** C3, amended. After every successful decode, [function_name] is the
    value that [properties] holds under the key [handler] exactly as
    written, and [None] when there is no such key. *)
Theorem function_name_is_handler :
  forall (self : Input.t) (conn : Conn) (self' : Input.t) (conn' : Conn),
    Input.read (self, conn) = (Ok tt, (self', conn')) ->
    Input.function_name self' =
      Dict.get (Some (py "handler")) (Input.properties self') /\
    (Dict.mem (Some (py "handler")) (Input.properties self') = false ->
     Input.function_name self' = None).
Proof.
  intros self conn self' conn' H.
  apply read_outcome in H as [[_ [self4 [_ ->]]] | [e [E _]]];
    [| discriminate].
  simpl. split; [reflexivity |].
  induction (Input.properties self4) as [| [k v] d IH]; simpl.
  - reflexivity.
  - destruct (opt_str_eqb k (Some (py "handler"))); simpl;
      [discriminate | exact IH].
Qed.

Lemma function_name_is_handler_witness :
  Input.function_name handler_request =
    Dict.get (Some (py "handler")) (Input.properties handler_request) /\
  Input.function_name handler_request = None.
Proof.
  destruct (function_name_is_handler Input.init handler_conn handler_request [])
    as [H1 H2].
  - vm_compute. reflexivity.
  - split; [exact H1 | apply H2; vm_compute; reflexivity].
Defined.

(** C4, as the specification states it, fails: the value of the content
    type is compared as it is written. Under [Content-Type:
    Application/JSON] the table read without regard to case gives the
    structured-record extraction, and [get_data] returns the raw bytes. *)
Lemma get_data_compares_value_exactly :
  Input.get_property ascii_lower (py "content-type") json_request =
    (Ok (Some (py "Application/JSON")), json_request) /\
  route_caseless ascii_lower (Some (py "Application/JSON")) = Json /\
  Input.get_data ascii_lower None json_request =
    (Ok (Bytes (Some (bytes_of "{}"))), json_request) /\
  Input.get_data ascii_lower None json_request <>
    extract Json None json_request.
Proof.
  split; [vm_compute; reflexivity |].
  split; [vm_compute; reflexivity |].
  split; [vm_compute; reflexivity |].
  vm_compute. discriminate.
Qed.

(** C4, amended. Whenever the lookup of the property [content-type] (its
    key matched without regard to case) returns, [get_data] dispatches on
    the value as written and on nothing else: [tensor/ndlist] goes to the
    numeric-array extraction, [application/json] to the structured-record
    extraction, a value that starts with [text/] to the text extraction,
    one that starts with [image/] to the image extraction, and any other
    value, or none, to the raw bytes. *)
Theorem get_data_dispatch :
  forall (lower : str -> str) (key : option str) (self : Input.t)
         (content_type : option str),
    Input.get_property lower (py "content-type") self =
      (Ok content_type, self) ->
    Input.get_data lower key self = extract (route content_type) key self.
Proof.
  intros lower key self ct H. apply get_data_route.
  unfold Input.get_property in H. congruence.
Qed.

Lemma get_data_dispatch_witness :
  Input.get_data ascii_lower None json_request =
  extract (route (Some (py "Application/JSON"))) None json_request.
Proof.
  apply (get_data_dispatch ascii_lower None json_request).
  vm_compute. reflexivity.
Defined.

(** C5. When the source holds fewer than [n] bytes before it is closed,
    [retrieve_buffer] raises the disconnection; when it returns, it returns
    exactly [n] bytes (none for an [n] that is not positive), which are the
    next bytes of the stream, and never fewer. *)
Theorem retrieve_buffer_exact :
  forall (n : Z) (conn : Conn),
    (len (List.concat conn) < n ->
     exists conn',
       retrieve_buffer n conn = (Raise ValueError_disconnected, conn')) /\
    (forall data conn',
       retrieve_buffer n conn = (Ok data, conn') ->
       len data = Z.max 0 n /\ List.concat conn = data ++ List.concat conn').
Proof.
  intros n conn. split.
  - intros H. apply loop_short_stream. exact H.
  - intros data conn' H. apply retrieve_buffer_returns. exact H.
Qed.

Lemma retrieve_buffer_exact_witness :
  (exists conn',
     retrieve_buffer 3 [[x01]; [x02]] = (Raise ValueError_disconnected, conn')) /\
  (len [x01; x02] = Z.max 0 2 /\
   List.concat [[x01]; [x02; x03]] = [x01; x02] ++ List.concat [[x03]]).
Proof.
  split.
  - apply (proj1 (retrieve_buffer_exact 3 [[x01]; [x02]])).
    vm_compute. reflexivity.
  - apply (proj2 (retrieve_buffer_exact 2 [[x01]; [x02; x03]]) [x01; x02] [[x03]]).
    vm_compute. reflexivity.
Defined.

(** C6. [retrieve_utf8] reads the two bytes of a signed big-endian prefix.
    When the prefix is negative it returns [None] and has taken these two
    bytes and no other; otherwise it takes that many further bytes and
    returns them decoded as UTF-8, or raises the decode error when they are
    not valid UTF-8. *)
Theorem retrieve_utf8_prefix :
  forall (conn : Conn) (b0 b1 : byte) (stream : bytes),
    delivers conn (b0 :: b1 :: stream) ->
    (Wire.int16 b0 b1 < 0 ->
     exists conn',
       retrieve_utf8 conn = (Ok None, conn') /\ delivers conn' stream) /\
    (forall payload rest,
       stream = payload ++ rest ->
       len payload = Wire.int16 b0 b1 ->
       exists conn',
         retrieve_utf8 conn =
           (match utf8_decode payload with
            | Some s => Ok (Some s)
            | None => Raise UnicodeDecodeError
            end, conn') /\
         delivers conn' rest).
Proof.
  intros conn b0 b1 stream H. split.
  - intros Hneg. apply (retrieve_utf8_null conn b0 b1 stream H Hneg).
  - intros payload rest -> Hlen.
    apply (retrieve_utf8_text conn b0 b1 payload rest H Hlen).
Qed.

Lemma retrieve_utf8_prefix_witness :
  (exists conn',
     retrieve_utf8 [[xff]; [xff; x41]] = (Ok None, conn') /\
     delivers conn' [x41]) /\
  (exists conn',
     retrieve_utf8 [[x00; x02; xc3]; [xa9; x41]] =
       (match utf8_decode [xc3; xa9] with
        | Some s => Ok (Some s)
        | None => Raise UnicodeDecodeError
        end, conn') /\
     delivers conn' [x41]) /\
  (exists conn',
     retrieve_utf8 [[x00; x01; xff; x41]] =
       (match utf8_decode [xff] with
        | Some s => Ok (Some s)
        | None => Raise UnicodeDecodeError
        end, conn') /\
     delivers conn' [x41]).
Proof.
  split; [| split].
  - apply (proj1 (retrieve_utf8_prefix [[xff]; [xff; x41]] xff xff [x41]
                    (conj eq_refl eq_refl))).
    vm_compute. reflexivity.
  - apply (proj2 (retrieve_utf8_prefix [[x00; x02; xc3]; [xa9; x41]]
                    x00 x02 [xc3; xa9; x41] (conj eq_refl eq_refl))
             [xc3; xa9] [x41]).
    + reflexivity.
    + vm_compute. reflexivity.
  - apply (proj2 (retrieve_utf8_prefix [[x00; x01; xff; x41]]
                    x00 x01 [xff; x41] (conj eq_refl eq_refl))
             [xff] [x41]).
    + reflexivity.
    + vm_compute. reflexivity.
Defined.

(** The lookup returns whenever no key of [properties] is [None]; it raises
    [AttributeError] when it meets such a key before a match. *)
Lemma get_property_returns lower key self :
  forallb (fun kv => match fst kv with Some _ => true | None => false end)
    (Input.properties self) = true ->
  exists v, Input.get_property lower key self = (Ok v, self).
Proof.
  unfold Input.get_property. intros H.
  induction (Input.properties self) as [| [[k |] v] d IH]; simpl in *.
  - exists None. reflexivity.
  - destruct (str_eqb (lower k) (lower key)).
    + exists v. reflexivity.
    + apply IH. exact H.
  - discriminate.
Qed.

Example get_data_null_key :
  Input.get_data ascii_lower None
    (Input.mk None [(None, Some (py "v"))] [(None, bytes_of "X")]) =
  (Raise AttributeError,
   Input.mk None [(None, Some (py "v"))] [(None, bytes_of "X")]).
Proof. vm_compute. reflexivity. Qed.

(** C7. On a request whose content is empty, [get_as_bytes] raises
    [Exception("input is empty.")], with a key and without one; it returns
    nothing, not even [None]. *)
Theorem get_as_bytes_empty :
  forall (key : option str) (self : Input.t),
    Input.content self = [] ->
    Input.get_as_bytes key self = (Raise Exception_input_is_empty, self).
Proof.
  intros key self H. unfold Input.get_as_bytes. rewrite H. reflexivity.
Qed.

Lemma get_as_bytes_empty_witness :
  Input.get_as_bytes None Input.init =
    (Raise Exception_input_is_empty, Input.init) /\
  Input.get_as_bytes (Some (py "data")) Input.init =
    (Raise Exception_input_is_empty, Input.init).
Proof.
  split.
  - apply (get_as_bytes_empty None Input.init). reflexivity.
  - apply (get_as_bytes_empty (Some (py "data")) Input.init). reflexivity.
Defined.

(** C8. On a request whose content is not empty, [get_as_bytes] without a
    key returns the value of the first pair whose key is [data] when there
    is one, and the value of the first pair otherwise; with a key it
    returns the value of the first pair with that key, and [None] when no
    pair has it. *)
Theorem get_as_bytes_nonempty :
  forall (self : Input.t),
    Input.content self <> [] ->
    Input.get_as_bytes None self =
      (Ok (match first_value (py "data") (Input.content self) with
           | Some v => Some v
           | None => option_map snd (hd_error (Input.content self))
           end), self) /\
    (exists p, hd_error (Input.content self) = Some p) /\
    (forall key,
       Input.get_as_bytes (Some key) self =
         (Ok (first_value key (Input.content self)), self)).
Proof.
  intros self H. unfold Input.get_as_bytes.
  destruct (Input.content self) as [| p l] eqn:E; [contradiction |].
  rewrite !PairList_get_first. simpl PairList.is_empty. cbv iota.
  split; [| split].
  - destruct (first_value (py "data") (p :: l)); reflexivity.
  - exists p. reflexivity.
  - intros key. rewrite PairList_get_first. reflexivity.
Qed.

Lemma get_as_bytes_nonempty_witness :
  Input.get_as_bytes None plain_request =
    (Ok (match first_value (py "data") (Input.content plain_request) with
         | Some v => Some v
         | None => option_map snd (hd_error (Input.content plain_request))
         end), plain_request) /\
  (exists p, hd_error (Input.content plain_request) = Some p) /\
  (forall key,
     Input.get_as_bytes (Some key) plain_request =
       (Ok (first_value key (Input.content plain_request)), plain_request)).
Proof.
  apply (get_as_bytes_nonempty plain_request). vm_compute. discriminate.
Defined.

(** The examples of the specification: [data] is preferred to the first
    pair, and the first pair is taken when no key is [data]. *)
Example get_as_bytes_data :
  Input.get_as_bytes None plain_request = (Ok (Some (bytes_of "Y")), plain_request).
Proof. vm_compute. reflexivity. Qed.

Example get_as_bytes_first :
  Input.get_as_bytes None (Input.mk None [] [(Some (py "other"), bytes_of "X")]) =
  (Ok (Some (bytes_of "X")), Input.mk None [] [(Some (py "other"), bytes_of "X")]).
Proof. vm_compute. reflexivity. Qed.

(** C9. No accessor changes the request: after [get_data], [get_as_bytes],
    [get_as_string], [get_as_json], [get_as_image] or [get_as_numpy], with
    any key, [function_name], [properties] and [content] are what they
    were; so a call returns the same whether or not other calls came
    before it, and the same when it is repeated. *)
Theorem accessors_do_not_mutate :
  forall (lower : str -> str) (a : accessor) (key : option str)
         (self : Input.t),
    snd (call lower a key self) = self /\
    (forall a' key',
       fst (call lower a' key' (snd (call lower a key self))) =
       fst (call lower a' key' self)) /\
    fst (call lower a key (snd (call lower a key self))) =
      fst (call lower a key self).
Proof.
  intros lower a key self. rewrite call_state.
  split; [reflexivity |]. split; [intros a' key' |]; reflexivity.
Qed.

(** C10. For a length that is not positive [retrieve_buffer] returns the
    empty buffer and leaves the connection as it is: nothing is received.
    So a content pair whose 32-bit length is zero or negative is decoded
    with an empty value, no byte being taken after the length, and nothing
    is raised. *)
Theorem retrieve_buffer_nonpositive :
  forall (n : Z),
    n <= 0 ->
    (forall conn, retrieve_buffer n conn = (Ok [], conn)) /\
    (forall self conn key c1 c2,
       retrieve_utf8 conn = (Ok key, c1) ->
       retrieve_int c1 = (Ok n, c2) ->
       Input.read_content (self, conn) =
         (Ok tt,
          (Input.set_content (Input.content self ++ [(key, [])]) self, c2))).
Proof.
  intros n Hn. split.
  - intros conn. apply retrieve_buffer_done. exact Hn.
  - intros self conn key c1 c2 H1 H2. unfold Input.read_content.
    rewrite (bind_ok _ _ _ _ _ (on_conn_ok _ self _ _ _ H1)).
    rewrite (bind_ok _ _ _ _ _ (on_conn_ok _ self _ _ _ H2)).
    rewrite (bind_ok _ _ _ _ _
               (on_conn_ok _ self _ _ _ (retrieve_buffer_done n c2 Hn))).
    reflexivity.
Qed.

Lemma retrieve_buffer_nonpositive_witness :
  retrieve_buffer (-1) [[x41]] = (Ok [], [[x41]]) /\
  Input.read_content
    (Input.init, [[xff; xff; xff; xff]; [xff; xff; x41]]) =
    (Ok tt,
     (Input.set_content (Input.content Input.init ++ [(None, [])]) Input.init,
      [[x41]])).
Proof.
  assert (Hn : -1 <= 0) by (intros H; discriminate H).
  split.
  - apply (proj1 (retrieve_buffer_nonpositive (-1) Hn)).
  - apply (proj2 (retrieve_buffer_nonpositive (-1) Hn) Input.init
             [[xff; xff; xff; xff]; [xff; xff; x41]] None
             [[xff; xff]; [xff; xff; x41]] [[x41]]).
    + vm_compute. reflexivity.
    + vm_compute. reflexivity.
Defined.

(** * Further properties of the code *)

(** ** The primitives *)

Lemma unpack_i_int32 b0 b1 b2 b3 :
  unpack_i [b0; b1; b2; b3] = Ok (int32_value b0 b1 b2 b3).
Proof.
  unfold unpack_i, int32_value.
  pose proof (byte_val_range b0). pose proof (byte_val_range b1).
  pose proof (byte_val_range b2). pose proof (byte_val_range b3).
  rewrite (lor_shiftl_add _ (byte_val b3) 8) by lia.
  rewrite (lor_shiftl_add _ _ 16) by lia.
  rewrite (lor_shiftl_add _ _ 24) by lia.
  change (2 ^ 8) with 256. change (2 ^ 16) with 65536.
  change (2 ^ 24) with 16777216.
  replace (byte_val b0 * 16777216 +
           (byte_val b1 * 65536 + (byte_val b2 * 256 + byte_val b3)))
    with (byte_val b0 * 16777216 + byte_val b1 * 65536 +
          byte_val b2 * 256 + byte_val b3) by lia.
  reflexivity.
Qed.

Lemma retrieve_int_stream conn b0 b1 b2 b3 rest :
  delivers conn (b0 :: b1 :: b2 :: b3 :: rest) ->
  exists conn',
    retrieve_int conn = (Ok (int32_value b0 b1 b2 b3), conn') /\
    delivers conn' rest.
Proof.
  intros H.
  destruct (retrieve_buffer_delivers conn [b0; b1; b2; b3] rest H)
    as [conn' [H1 H2]].
  exists conn'. split; [| exact H2].
  unfold retrieve_int. change (len [b0; b1; b2; b3]) with 4 in H1.
  rewrite (bind_ok _ _ _ _ _ H1). unfold lift_result.
  rewrite unpack_i_int32. reflexivity.
Qed.

(** A live connection that ends before [n] bytes: the loop raises once
    everything has been received. *)
Lemma loop_short_live conn : forall n data,
  live conn = true ->
  len (List.concat conn) < n ->
  retrieve_buffer_loop n data conn = (Raise ValueError_disconnected, []).
Proof.
  induction conn as [| pkt rest IH]; intros n data Hl H.
  - apply loop_closed; [exact H | reflexivity].
  - apply live_cons in Hl as [Hp Hl]. simpl in H. rewrite len_app in H.
    pose proof (len_nonneg pkt). pose proof (len_nonneg (List.concat rest)).
    rewrite (loop_step _ _ _ pkt rest); [| lia | apply recv_whole; lia | exact Hp].
    apply IH; [exact Hl | lia].
Qed.

Lemma delivers_split conn (n : Z) :
  live conn = true ->
  0 <= n <= len (List.concat conn) ->
  delivers conn (firstn (Z.to_nat n) (List.concat conn) ++
                 skipn (Z.to_nat n) (List.concat conn)) /\
  len (firstn (Z.to_nat n) (List.concat conn)) = n.
Proof.
  intros Hl Hn. split.
  - split; [exact Hl | symmetry; apply firstn_skipn].
  - unfold len in *. rewrite length_firstn. lia.
Qed.

(** X1. On a live connection that still carries two bytes,
    [retrieve_short] takes exactly these two bytes and returns their signed
    big-endian value, which lies between -32768 and 32767. *)
Theorem retrieve_short_value :
  forall (conn : Conn) (b0 b1 : byte) (rest : bytes),
    delivers conn (b0 :: b1 :: rest) ->
    exists conn',
      retrieve_short conn = (Ok (Wire.int16 b0 b1), conn') /\
      delivers conn' rest /\
      -32768 <= Wire.int16 b0 b1 <= 32767.
Proof.
  intros conn b0 b1 rest H.
  apply retrieve_short_stream in H as [conn' [H1 H2]].
  exists conn'. split; [exact H1 |]. split; [exact H2 |].
  unfold Wire.int16.
  pose proof (byte_val_range b0). pose proof (byte_val_range b1).
  destruct (Z.ltb_spec (byte_val b0 * 256 + byte_val b1) 32768); lia.
Qed.

Lemma retrieve_short_value_witness :
  exists conn',
    retrieve_short [[xff]; [xfe; x41]] = (Ok (Wire.int16 xff xfe), conn') /\
    delivers conn' [x41] /\
    -32768 <= Wire.int16 xff xfe <= 32767.
Proof.
  apply (retrieve_short_value [[xff]; [xfe; x41]] xff xfe [x41]).
  split; reflexivity.
Defined.

(** X2. On a live connection that still carries four bytes,
    [retrieve_int] takes exactly these four bytes and returns their signed
    big-endian value, which lies between -2^31 and 2^31 - 1. *)
Theorem retrieve_int_value :
  forall (conn : Conn) (b0 b1 b2 b3 : byte) (rest : bytes),
    delivers conn (b0 :: b1 :: b2 :: b3 :: rest) ->
    exists conn',
      retrieve_int conn = (Ok (int32_value b0 b1 b2 b3), conn') /\
      delivers conn' rest /\
      -2147483648 <= int32_value b0 b1 b2 b3 <= 2147483647.
Proof.
  intros conn b0 b1 b2 b3 rest H.
  apply retrieve_int_stream in H as [conn' [H1 H2]].
  exists conn'. split; [exact H1 |]. split; [exact H2 |].
  unfold int32_value.
  pose proof (byte_val_range b0). pose proof (byte_val_range b1).
  pose proof (byte_val_range b2). pose proof (byte_val_range b3).
  match goal with |- _ <= (if ?u <? _ then _ else _) <= _ =>
    destruct (Z.ltb_spec u 2147483648) end; lia.
Qed.

Lemma retrieve_int_value_witness :
  exists conn',
    retrieve_int [[xff; xff]; [xff]; [xfe; x41]] =
      (Ok (int32_value xff xff xff xfe), conn') /\
    delivers conn' [x41] /\
    -2147483648 <= int32_value xff xff xff xfe <= 2147483647.
Proof.
  apply (retrieve_int_value [[xff; xff]; [xff]; [xfe; x41]] xff xff xff xfe [x41]).
  split; reflexivity.
Defined.

(** X3. Integers written in network byte order are read back: a 16-bit
    value by [retrieve_short] and a 32-bit value by [retrieve_int], each
    taking exactly the bytes of the value, however the packets fall. *)
Theorem retrieve_integers_round_trip :
  forall (conn : Conn) (n : Z) (rest : bytes),
    (-32768 <= n <= 32767 ->
     delivers conn (Wire.pack_h n ++ rest) ->
     exists conn', retrieve_short conn = (Ok n, conn') /\ delivers conn' rest) /\
    (-2147483648 <= n <= 2147483647 ->
     delivers conn (Wire.pack_i n ++ rest) ->
     exists conn', retrieve_int conn = (Ok n, conn') /\ delivers conn' rest).
Proof.
  intros conn n rest. split.
  - intros Hn H. apply (retrieve_short_delivers conn n rest Hn H).
  - intros Hn H. apply (retrieve_int_delivers conn n rest Hn H).
Qed.

Lemma retrieve_integers_round_trip_witness :
  (exists conn',
     retrieve_short [Wire.pack_h (-300) ++ [x41]] = (Ok (-300), conn') /\
     delivers conn' [x41]) /\
  (exists conn',
     retrieve_int [Wire.pack_i (-70000) ++ [x41]] = (Ok (-70000), conn') /\
     delivers conn' [x41]).
Proof.
  split.
  - apply (proj1 (retrieve_integers_round_trip
                    [Wire.pack_h (-300) ++ [x41]] (-300) [x41])).
    + split; intros H; discriminate H.
    + split; reflexivity.
  - apply (proj2 (retrieve_integers_round_trip
                    [Wire.pack_i (-70000) ++ [x41]] (-70000) [x41])).
    + split; intros H; discriminate H.
    + split; reflexivity.
Defined.

(** X4. On a live connection [retrieve_buffer] succeeds exactly when the
    stream still holds [n] bytes: it then returns the first [n] bytes and
    leaves the others, in whatever packets they come; when the stream is
    shorter it raises the disconnection after having received everything. *)
Theorem retrieve_buffer_on_live_connection :
  forall (conn : Conn) (n : Z),
    live conn = true ->
    (0 <= n <= len (List.concat conn) ->
     exists conn',
       retrieve_buffer n conn =
         (Ok (firstn (Z.to_nat n) (List.concat conn)), conn') /\
       delivers conn' (skipn (Z.to_nat n) (List.concat conn))) /\
    (len (List.concat conn) < n ->
     retrieve_buffer n conn = (Raise ValueError_disconnected, [])).
Proof.
  intros conn n Hl. split.
  - intros Hn. destruct (delivers_split conn n Hl Hn) as [Hd Hlen].
    apply retrieve_buffer_delivers in Hd. rewrite Hlen in Hd. exact Hd.
  - intros Hn. apply loop_short_live; assumption.
Qed.

Lemma retrieve_buffer_on_live_connection_witness :
  (exists conn',
     retrieve_buffer 3 [[x01]; [x02; x03; x04]] =
       (Ok (firstn (Z.to_nat 3) (List.concat [[x01]; [x02; x03; x04]])), conn') /\
     delivers conn'
       (skipn (Z.to_nat 3) (List.concat [[x01]; [x02; x03; x04]]))) /\
  retrieve_buffer 5 [[x01]; [x02; x03; x04]] =
    (Raise ValueError_disconnected, []).
Proof.
  split.
  - apply (proj1 (retrieve_buffer_on_live_connection
                    [[x01]; [x02; x03; x04]] 3 eq_refl)).
    split; intros H; discriminate H.
  - apply (proj2 (retrieve_buffer_on_live_connection
                    [[x01]; [x02; x03; x04]] 5 eq_refl)).
    reflexivity.
Defined.

(** ** Packets do not matter *)

Lemma packet_blind_ret {A} (a : A) : packet_blind (ret a).
Proof. intros c1 c2 H. split; [reflexivity | exact H]. Qed.

Lemma packet_blind_raise {A} (e : error) : packet_blind (@raise Conn A e).
Proof. intros c1 c2 H. split; [reflexivity | exact H]. Qed.

Lemma packet_blind_lift {A} (r : result A) : packet_blind (lift_result r).
Proof. intros c1 c2 H. split; [reflexivity | exact H]. Qed.

Lemma packet_blind_bind {A B} (m : M Conn A) (k : A -> M Conn B) :
  packet_blind m -> (forall a, packet_blind (k a)) -> packet_blind (bind m k).
Proof.
  intros Hm Hk c1 c2 H. unfold bind.
  destruct (Hm c1 c2 H) as [E S].
  destruct (m c1) as [[a1 | e1] s1], (m c2) as [[a2 | e2] s2];
    simpl in E, S; try discriminate.
  - inversion E; subst. apply Hk. exact S.
  - inversion E; subst. split; [reflexivity | exact S].
Qed.

Lemma same_stream_nil : same_stream [] [].
Proof. repeat split. Qed.

Lemma packet_blind_retrieve_buffer n : packet_blind (retrieve_buffer n).
Proof.
  intros c1 c2 [L1 [L2 E]].
  destruct (Z.le_gt_cases n 0) as [Hn | Hn].
  - rewrite !retrieve_buffer_done by exact Hn. simpl. repeat split; assumption.
  - destruct (Z.le_gt_cases n (len (List.concat c1))) as [Hle | Hgt].
    + destruct (delivers_split c1 n L1 ltac:(lia)) as [D1 Hlen].
      assert (D2 : delivers c2 (firstn (Z.to_nat n) (List.concat c1) ++
                                skipn (Z.to_nat n) (List.concat c1))).
      { split; [exact L2 | rewrite <- E; symmetry; apply firstn_skipn]. }
      apply retrieve_buffer_delivers in D1 as [c1' [R1 [L1' E1']]].
      apply retrieve_buffer_delivers in D2 as [c2' [R2 [L2' E2']]].
      rewrite Hlen in R1, R2. rewrite R1, R2. simpl.
      split; [reflexivity |]. repeat split; congruence.
    + unfold retrieve_buffer.
      rewrite (loop_short_live c1) by (auto; lia).
      rewrite (loop_short_live c2) by (auto; rewrite <- E; lia).
      split; [reflexivity | apply same_stream_nil].
Qed.

Lemma packet_blind_retrieve_short : packet_blind retrieve_short.
Proof.
  apply packet_blind_bind; [apply packet_blind_retrieve_buffer |].
  intros data. apply packet_blind_lift.
Qed.

Lemma packet_blind_retrieve_int : packet_blind retrieve_int.
Proof.
  apply packet_blind_bind; [apply packet_blind_retrieve_buffer |].
  intros data. apply packet_blind_lift.
Qed.

Lemma packet_blind_retrieve_utf8 : packet_blind retrieve_utf8.
Proof.
  apply packet_blind_bind; [apply packet_blind_retrieve_short |].
  intros n. destruct (n <? 0); [apply packet_blind_ret |].
  apply packet_blind_bind; [apply packet_blind_retrieve_buffer |].
  intros data. apply packet_blind_bind.
  - unfold decode_utf8. destruct (utf8_decode data);
      [apply packet_blind_ret | apply packet_blind_raise].
  - intros s. apply packet_blind_ret.
Qed.

Lemma blind_on_conn {A} (m : M Conn A) :
  packet_blind m -> packet_blind_on_request (Input.on_conn m).
Proof.
  intros Hm self c1 c2 H. unfold Input.on_conn.
  destruct (Hm c1 c2 H) as [E S].
  destruct (m c1) as [r1 s1], (m c2) as [r2 s2]. simpl in *.
  repeat split; try apply S. exact E.
Qed.

Lemma blind_on_self (f : Input.t -> Input.t) :
  packet_blind_on_request (Input.on_self f).
Proof.
  intros self c1 c2 H. simpl. repeat split; apply H.
Qed.

Lemma blind_bind {A B} (m : M (Input.t * Conn) A)
      (k : A -> M (Input.t * Conn) B) :
  packet_blind_on_request m ->
  (forall a, packet_blind_on_request (k a)) ->
  packet_blind_on_request (bind m k).
Proof.
  intros Hm Hk self c1 c2 H. unfold bind.
  destruct (Hm self c1 c2 H) as [E [F S]].
  destruct (m (self, c1)) as [[a1 | e1] [f1 s1]],
           (m (self, c2)) as [[a2 | e2] [f2 s2]];
    simpl in E, F, S; try discriminate; inversion E; subst.
  - apply Hk. exact S.
  - simpl. repeat split; apply S.
Qed.

Lemma blind_repeat (body : M (Input.t * Conn) unit) :
  packet_blind_on_request body ->
  forall n, packet_blind_on_request (repeat_body n body).
Proof.
  intros Hb n. induction n as [| n IH].
  - intros self c1 c2 H. simpl. repeat split; apply H.
  - simpl. apply blind_bind; [exact Hb | intros _; exact IH].
Qed.

Lemma blind_read_property : packet_blind_on_request Input.read_property.
Proof.
  apply blind_bind; [apply blind_on_conn, packet_blind_retrieve_utf8 |].
  intros key.
  apply blind_bind; [apply blind_on_conn, packet_blind_retrieve_utf8 |].
  intros val. apply blind_on_self.
Qed.

Lemma blind_read_content : packet_blind_on_request Input.read_content.
Proof.
  apply blind_bind; [apply blind_on_conn, packet_blind_retrieve_utf8 |].
  intros key.
  apply blind_bind; [apply blind_on_conn, packet_blind_retrieve_int |].
  intros n.
  apply blind_bind; [apply blind_on_conn, packet_blind_retrieve_buffer |].
  intros val. apply blind_on_self.
Qed.

Lemma blind_read : packet_blind_on_request Input.read.
Proof.
  apply blind_bind; [apply blind_on_conn, packet_blind_retrieve_short |].
  intros prop_size.
  apply blind_bind; [apply blind_repeat, blind_read_property |].
  intros _.
  apply blind_bind; [apply blind_on_conn, packet_blind_retrieve_short |].
  intros content_size.
  apply blind_bind; [apply blind_repeat, blind_read_content |].
  intros _. apply blind_on_self.
Qed.

(** X5. The decode does not depend on the packets: on two live connections
    that carry the same bytes, cut in any two ways, [read] ends the same way
    (returns, or raises the same exception), leaves the same request, and
    leaves the same bytes to be received. *)
Theorem read_independent_of_packets :
  forall (self : Input.t) (c1 c2 : Conn) (s : bytes),
    delivers c1 s ->
    delivers c2 s ->
    fst (Input.read (self, c1)) = fst (Input.read (self, c2)) /\
    fst (snd (Input.read (self, c1))) = fst (snd (Input.read (self, c2))) /\
    List.concat (snd (snd (Input.read (self, c1)))) =
    List.concat (snd (snd (Input.read (self, c2)))).
Proof.
  intros self c1 c2 s [L1 E1] [L2 E2].
  destruct (blind_read self c1 c2) as [R [F [_ [_ S]]]].
  - repeat split; congruence.
  - repeat split; assumption.
Qed.

Lemma read_independent_of_packets_witness :
  fst (Input.read (Input.init, sample_conn)) =
    fst (Input.read (Input.init, [List.concat sample_conn])) /\
  fst (snd (Input.read (Input.init, sample_conn))) =
    fst (snd (Input.read (Input.init, [List.concat sample_conn]))) /\
  List.concat (snd (snd (Input.read (Input.init, sample_conn)))) =
  List.concat (snd (snd (Input.read (Input.init, [List.concat sample_conn])))).
Proof.
  apply (read_independent_of_packets Input.init sample_conn
           [List.concat sample_conn] (List.concat sample_conn)).
  - split; reflexivity.
  - split; vm_compute; reflexivity.
Defined.

(** ** Null strings and streams that stop too early *)

(** X6. [retrieve_utf8] returns [None] exactly when the length prefix is
    negative: a prefix of zero gives the empty string, never [None], so a
    missing value and an empty one are told apart. *)
Theorem retrieve_utf8_null_iff_negative :
  forall (conn : Conn) (b0 b1 : byte) (stream : bytes),
    delivers conn (b0 :: b1 :: stream) ->
    ((exists conn', retrieve_utf8 conn = (Ok None, conn')) <->
     Wire.int16 b0 b1 < 0) /\
    (Wire.int16 b0 b1 = 0 ->
     exists conn',
       retrieve_utf8 conn = (Ok (Some []), conn') /\ delivers conn' stream).
Proof.
  intros conn b0 b1 stream H. split; [split |].
  - intros [conn' Hr].
    destruct (Z.lt_ge_cases (Wire.int16 b0 b1) 0) as [Hneg | Hpos];
      [exact Hneg | exfalso].
    apply retrieve_short_stream in H as [c1 [H1 _]].
    unfold retrieve_utf8 in Hr. rewrite (bind_ok _ _ _ _ _ H1) in Hr.
    destruct (Z.ltb_spec (Wire.int16 b0 b1) 0); [lia |].
    apply bind_inv in Hr as [[data [c2 [_ Hr]]] | [e [_ Hr]]];
      [| discriminate].
    apply bind_inv in Hr as [[s [c3 [_ Hr]]] | [e [_ Hr]]]; discriminate.
  - intros Hneg.
    destruct (retrieve_utf8_null conn b0 b1 stream H Hneg) as [conn' [Hr _]].
    exists conn'. exact Hr.
  - intros Hz.
    destruct (retrieve_utf8_text conn b0 b1 [] stream H) as [conn' [Hr Hd]].
    { rewrite Hz. reflexivity. }
    exists conn'. split; [exact Hr | exact Hd].
Qed.

Lemma retrieve_utf8_null_iff_negative_witness :
  ((exists conn', retrieve_utf8 [[x00; x00; x41]] = (Ok None, conn')) <->
   Wire.int16 x00 x00 < 0) /\
  (exists conn',
     retrieve_utf8 [[x00; x00; x41]] = (Ok (Some []), conn') /\
     delivers conn' [x41]).
Proof.
  destruct (retrieve_utf8_null_iff_negative [[x00; x00; x41]] x00 x00 [x41])
    as [H1 H2].
  - split; reflexivity.
  - split; [exact H1 | apply H2; reflexivity].
Defined.

Lemma retrieve_utf8_cut conn b0 b1 stream :
  delivers conn (b0 :: b1 :: stream) ->
  len stream < Wire.int16 b0 b1 ->
  retrieve_utf8 conn = (Raise ValueError_disconnected, []).
Proof.
  intros H Hlen. apply retrieve_short_stream in H as [c1 [H1 [L1 E1]]].
  unfold retrieve_utf8. rewrite (bind_ok _ _ _ _ _ H1).
  pose proof (len_nonneg stream).
  destruct (Z.ltb_spec (Wire.int16 b0 b1) 0); [lia |].
  apply bind_raise. unfold retrieve_buffer.
  apply loop_short_live; [exact L1 | rewrite E1; exact Hlen].
Qed.

(** X7. When the prefix announces more bytes than the live connection
    still carries, [retrieve_utf8] raises the disconnection once everything
    has been received; it returns no shorter string and does not try to
    decode what came. *)
Theorem retrieve_utf8_truncated :
  forall (conn : Conn) (b0 b1 : byte) (stream : bytes),
    delivers conn (b0 :: b1 :: stream) ->
    len stream < Wire.int16 b0 b1 ->
    retrieve_utf8 conn = (Raise ValueError_disconnected, []).
Proof.
  intros conn b0 b1 stream H Hlen.
  apply (retrieve_utf8_cut conn b0 b1 stream H Hlen).
Qed.

Lemma retrieve_utf8_truncated_witness :
  retrieve_utf8 [[x00]; [x03; xff]; [x41]] =
    (Raise ValueError_disconnected, []).
Proof.
  apply (retrieve_utf8_truncated [[x00]; [x03; xff]; [x41]] x00 x03 [xff; x41]).
  - split; reflexivity.
  - reflexivity.
Defined.

(** ** Frames that stop too early *)

Lemma strict_prefix_nil s : ~ strict_prefix s [].
Proof.
  intros [u [Hu E]]. symmetry in E. apply app_eq_nil in E as [_ E].
  contradiction.
Qed.

Lemma strict_prefix_len s t : strict_prefix s t -> len s < len t.
Proof.
  intros [u [Hu ->]]. rewrite len_app.
  destruct u; [contradiction | unfold len; simpl; lia].
Qed.

Lemma strict_prefix_app s a b :
  strict_prefix s (a ++ b) ->
  strict_prefix s a \/ exists s2, s = a ++ s2 /\ strict_prefix s2 b.
Proof.
  intros [u [Hu E]]. symmetry in E.
  apply app_eq_app in E as [l [[E1 E2] | [E1 E2]]].
  - right. exists l. split; [exact E1 |]. exists u. auto.
  - destruct l as [| x l].
    + right. exists []. rewrite app_nil_r in E1. simpl in E2. subst a u.
      split; [rewrite app_nil_r; reflexivity |].
      exists b. split; [exact Hu | reflexivity].
    + left. exists (x :: l). split; [discriminate | exact E1].
Qed.

Lemma reads_bind {A B} (m : M (Input.t * Conn) A)
      (k : A -> M (Input.t * Conn) B) a b Q R :
  reads m a Q -> (forall v, Q v -> reads (k v) b R) ->
  reads (bind m k) (a ++ b) R.
Proof.
  intros [Hm Cm] Hk. split.
  - intros self conn rest H. rewrite <- app_assoc in H.
    destruct (Hm self conn _ H) as [v [self1 [c1 [E1 [D1 Qv]]]]].
    destruct (Hk v Qv) as [Hkv _].
    destruct (Hkv self1 c1 rest D1) as [w [self2 [c2 [E2 [D2 Rw]]]]].
    exists w, self2, c2. rewrite (bind_ok _ _ _ _ _ E1). auto.
  - intros self conn s D P.
    apply strict_prefix_app in P as [P | [s2 [-> P]]].
    + destruct (Cm self conn s D P) as [self' E].
      exists self'. apply bind_raise. exact E.
    + destruct (Hm self conn s2 D) as [v [self1 [c1 [E1 [D1 Qv]]]]].
      destruct (Hk v Qv) as [_ Ck].
      destruct (Ck self1 c1 s2 D1 P) as [self' E].
      exists self'. rewrite (bind_ok _ _ _ _ _ E1). exact E.
Qed.

Lemma reads_on_self (f : Input.t -> Input.t) :
  reads (Input.on_self f) [] (fun _ => True).
Proof.
  split.
  - intros self conn rest H. exists tt, (f self), conn. auto.
  - intros self conn s _ P. apply strict_prefix_nil in P. contradiction.
Qed.

Lemma reads_on_conn {A} (m : M Conn A) wire (v : A) :
  (forall conn rest,
     delivers conn (wire ++ rest) ->
     exists conn', m conn = (Ok v, conn') /\ delivers conn' rest) ->
  (forall conn s,
     delivers conn s -> strict_prefix s wire ->
     m conn = (Raise ValueError_disconnected, [])) ->
  reads (Input.on_conn m) wire (eq v).
Proof.
  intros Hm Cm. split.
  - intros self conn rest H. destruct (Hm conn rest H) as [conn' [E D]].
    exists v, self, conn'.
    rewrite (on_conn_ok _ self _ _ _ E). auto.
  - intros self conn s D P. exists self.
    apply on_conn_raise. apply (Cm conn s D P).
Qed.

Lemma retrieve_buffer_cut n conn s :
  delivers conn s -> len s < n ->
  retrieve_buffer n conn = (Raise ValueError_disconnected, []).
Proof.
  intros [L E] H. apply loop_short_live; [exact L | rewrite E; exact H].
Qed.

Lemma reads_short n :
  -32768 <= n <= 32767 ->
  reads (Input.on_conn retrieve_short) (Wire.pack_h n) (eq n).
Proof.
  intros Hn. apply reads_on_conn.
  - intros conn rest H. apply retrieve_short_delivers; assumption.
  - intros conn s D P. apply strict_prefix_len in P.
    change (len (Wire.pack_h n)) with 2 in P.
    unfold retrieve_short. apply bind_raise.
    apply (retrieve_buffer_cut 2 conn s D P).
Qed.

Lemma reads_int n :
  -2147483648 <= n <= 2147483647 ->
  reads (Input.on_conn retrieve_int) (Wire.pack_i n) (eq n).
Proof.
  intros Hn. apply reads_on_conn.
  - intros conn rest H. apply retrieve_int_delivers; assumption.
  - intros conn s D P. apply strict_prefix_len in P.
    change (len (Wire.pack_i n)) with 4 in P.
    unfold retrieve_int. apply bind_raise.
    apply (retrieve_buffer_cut 4 conn s D P).
Qed.

Lemma reads_buffer n val :
  len val = Z.max 0 n ->
  reads (Input.on_conn (retrieve_buffer n)) val (eq val).
Proof.
  intros Hlen. apply reads_on_conn.
  - intros conn rest H. destruct (Z.le_gt_cases n 0) as [Hn | Hn].
    + assert (val = []) by (apply len_zero_nil; lia). subst val.
      exists conn. split; [apply retrieve_buffer_done; exact Hn | exact H].
    + replace n with (len val) by lia.
      apply retrieve_buffer_delivers. exact H.
  - intros conn s D P. apply strict_prefix_len in P.
    pose proof (len_nonneg s).
    apply (retrieve_buffer_cut n conn s D). lia.
Qed.

Lemma reads_utf8 w :
  Wire.str_ok w = true ->
  reads (Input.on_conn retrieve_utf8) (Wire.ser_str w) (eq (Wire.value w)).
Proof.
  intros Hok. apply reads_on_conn.
  - intros conn rest H. apply retrieve_utf8_delivers; assumption.
  - intros conn s D P. destruct w as [prefix | payload];
      unfold Wire.ser_str in P.
    + apply strict_prefix_len in P.
      change (len (Wire.pack_h prefix)) with 2 in P.
      unfold retrieve_utf8. apply bind_raise.
      unfold retrieve_short. apply bind_raise.
      apply (retrieve_buffer_cut 2 conn s D P).
    + simpl in Hok. apply andb_true_iff in Hok as [Hlen _].
      apply Z.leb_le in Hlen. pose proof (len_nonneg payload).
      apply strict_prefix_app in P as [P | [s2 [-> P]]].
      * apply strict_prefix_len in P.
        change (len (Wire.pack_h (len payload))) with 2 in P.
        unfold retrieve_utf8. apply bind_raise.
        unfold retrieve_short. apply bind_raise.
        apply (retrieve_buffer_cut 2 conn s D P).
      * apply strict_prefix_len in P.
        apply (retrieve_utf8_cut conn
                 (Wire.byte_of (Z.shiftr (len payload) 8))
                 (Wire.byte_of (len payload)) s2 D).
        rewrite int16_pack_h by lia. exact P.
Qed.

Lemma reads_weaken {A} (m : M (Input.t * Conn) A) wire (Q R : A -> Prop) :
  reads m wire Q -> (forall a, Q a -> R a) -> reads m wire R.
Proof.
  intros [Hm Cm] HQR. split; [| exact Cm].
  intros self conn rest H.
  destruct (Hm self conn rest H) as [a [self' [conn' [E [D Qa]]]]].
  exists a, self', conn'. auto.
Qed.

Lemma reads_property p :
  Wire.prop_ok p = true ->
  reads Input.read_property (Wire.ser_prop p) (fun _ => True).
Proof.
  intros Hok. apply andb_true_iff in Hok as [Hk Hv].
  unfold Input.read_property, Wire.ser_prop.
  rewrite <- (app_nil_r (Wire.ser_str (snd p))).
  eapply reads_bind; [apply (reads_utf8 _ Hk) | intros key _].
  eapply reads_bind; [apply (reads_utf8 _ Hv) | intros val _].
  apply reads_on_self.
Qed.

Lemma reads_content p :
  Wire.part_ok p = true ->
  reads Input.read_content (Wire.ser_part p) (fun _ => True).
Proof.
  destruct p as [[k n] val]. unfold Wire.part_ok, Wire.ser_part. intros Hok.
  rewrite !andb_true_iff in Hok. destruct Hok as [[[Hk Hlo] Hhi] Hlen].
  apply Z.leb_le in Hlo, Hhi. apply Z.eqb_eq in Hlen.
  unfold Input.read_content.
  rewrite <- (app_nil_r val).
  eapply reads_bind; [apply (reads_utf8 _ Hk) | intros key _].
  eapply reads_bind; [apply reads_int; lia | intros n' <-].
  eapply reads_bind; [apply (reads_buffer n val Hlen) | intros val' _].
  apply reads_on_self.
Qed.

Lemma reads_repeat {P} (body : M (Input.t * Conn) unit)
      (ser : P -> bytes) (ok : P -> bool) :
  (forall p, ok p = true -> reads body (ser p) (fun _ => True)) ->
  forall ps,
    forallb ok ps = true ->
    reads (repeat_body (List.length ps) body)
      (List.concat (map ser ps)) (fun _ => True).
Proof.
  intros Hb ps. induction ps as [| p ps IH]; intros Hok.
  - split.
    + intros self conn rest H. exists tt, self, conn. auto.
    + intros self conn s _ P0. apply strict_prefix_nil in P0. contradiction.
  - simpl in Hok. apply andb_true_iff in Hok as [Hp Hps]. simpl.
    eapply reads_bind; [apply (Hb p Hp) | intros _ _; apply (IH Hps)].
Qed.

Lemma reads_read f :
  Wire.well_formed f = true ->
  reads Input.read (Wire.ser_frame f) (fun _ => True).
Proof.
  intros Hwf. unfold Wire.well_formed in Hwf.
  rewrite !andb_true_iff in Hwf. destruct Hwf as [[[Hn1 Hps] Hn2] Hcs].
  apply Z.leb_le in Hn1, Hn2.
  pose proof (len_nonneg (Wire.props f)) as Hp0.
  pose proof (len_nonneg (Wire.parts f)) as Hc0.
  unfold Input.read, Wire.ser_frame.
  rewrite <- (app_nil_r (List.concat (map Wire.ser_part (Wire.parts f)))).
  eapply reads_bind; [apply reads_short; lia | intros n1 <-].
  eapply reads_bind.
  { unfold for_range, len. rewrite Nat2Z.id.
    apply (reads_repeat _ _ _ reads_property _ Hps). }
  intros _ _.
  eapply reads_bind; [apply reads_short; lia | intros n2 <-].
  eapply reads_bind.
  { unfold for_range, len. rewrite Nat2Z.id.
    apply (reads_repeat _ _ _ reads_content _ Hcs). }
  intros _ _. apply reads_on_self.
Qed.

(** X8. A well-formed frame that is cut anywhere before its end makes
    [read] raise the disconnection, after everything that came has been
    received: a truncated frame is never taken for a complete one, and is
    never reported as a decode error. *)
Theorem read_truncated_frame :
  forall (f : Wire.frame) (self : Input.t) (conn : Conn) (s : bytes),
    Wire.well_formed f = true ->
    delivers conn s ->
    strict_prefix s (Wire.ser_frame f) ->
    exists self',
      Input.read (self, conn) = (Raise ValueError_disconnected, (self', [])).
Proof.
  intros f self conn s Hwf D P.
  destruct (reads_read f Hwf) as [_ C]. apply (C self conn s D P).
Qed.

Lemma read_truncated_frame_witness :
  exists self',
    Input.read (Input.init, [firstn 11 (Wire.ser_frame sample_frame)]) =
      (Raise ValueError_disconnected, (self', [])).
Proof.
  apply (read_truncated_frame sample_frame Input.init
           [firstn 11 (Wire.ser_frame sample_frame)]
           (firstn 11 (Wire.ser_frame sample_frame))).
  - vm_compute. reflexivity.
  - split; vm_compute; reflexivity.
  - exists (skipn 11 (Wire.ser_frame sample_frame)).
    split; [vm_compute; discriminate | vm_compute; reflexivity].
Defined.

(** ** Counts, frames in sequence and the keys of [properties] *)

(** X9. Counts that are zero or negative announce nothing: [read] takes the
    two counts, leaves [properties] and [content] as they are, sets
    [function_name] from the properties the request already has, and
    returns. *)
Theorem read_nonpositive_counts :
  forall (self : Input.t) (conn : Conn) (n1 n2 : Z) (rest : bytes),
    -32768 <= n1 <= 0 ->
    -32768 <= n2 <= 0 ->
    delivers conn (Wire.pack_h n1 ++ Wire.pack_h n2 ++ rest) ->
    exists conn',
      Input.read (self, conn) =
        (Ok tt,
         (Input.set_function_name
            (Dict.get (Some (py "handler")) (Input.properties self)) self,
          conn')) /\
      delivers conn' rest.
Proof.
  intros self conn n1 n2 rest H1 H2 H.
  apply retrieve_short_delivers in H as [c1 [E1 H]]; [| lia].
  apply retrieve_short_delivers in H as [c2 [E2 H]]; [| lia].
  exists c2. split; [| exact H]. unfold Input.read.
  rewrite (bind_ok _ _ _ _ _ (on_conn_ok _ self _ _ _ E1)).
  rewrite (bind_ok _ _ _ _ _ (for_range_nonpositive n1 _ _ ltac:(lia))).
  rewrite (bind_ok _ _ _ _ _ (on_conn_ok _ self _ _ _ E2)).
  rewrite (bind_ok _ _ _ _ _ (for_range_nonpositive n2 _ _ ltac:(lia))).
  reflexivity.
Qed.

Lemma read_nonpositive_counts_witness :
  exists conn',
    Input.read (text_request, [Wire.pack_h (-1) ++ Wire.pack_h 0 ++ [x41]]) =
      (Ok tt,
       (Input.set_function_name
          (Dict.get (Some (py "handler")) (Input.properties text_request))
          text_request,
        conn')) /\
    delivers conn' [x41].
Proof.
  apply (read_nonpositive_counts text_request
           [Wire.pack_h (-1) ++ Wire.pack_h 0 ++ [x41]] (-1) 0 [x41]).
  - split; intros H; discriminate H.
  - split; intros H; discriminate H.
  - split; reflexivity.
Defined.

Lemma read_frame f self conn rest :
  Wire.well_formed f = true ->
  delivers conn (Wire.ser_frame f ++ rest) ->
  exists conn',
    Input.read (self, conn) = (Ok tt, (decoded_into f self, conn')) /\
    delivers conn' rest.
Proof.
  intros Hwf H. unfold Wire.well_formed in Hwf.
  rewrite !andb_true_iff in Hwf. destruct Hwf as [[[Hn1 Hps] Hn2] Hcs].
  apply Z.leb_le in Hn1, Hn2.
  unfold Wire.ser_frame in H. rewrite <- !app_assoc in H.
  pose proof (len_nonneg (Wire.props f)) as Hp0.
  pose proof (len_nonneg (Wire.parts f)) as Hc0.
  apply retrieve_short_delivers in H as [c1 [H1 H]]; [| lia].
  destruct (properties_loop _ self _ _ Hps H) as [c2 [H2 H3]].
  apply retrieve_short_delivers in H3 as [c3 [H4 H5]]; [| lia].
  destruct (content_loop _
              (Input.set_properties
                 (assign_all (map Wire.decoded_prop (Wire.props f))
                    (Input.properties self)) self) _ _ Hcs H5)
    as [c4 [H6 H7]].
  exists c4. split; [| exact H7].
  unfold Input.read.
  rewrite (bind_ok _ _ _ _ _ (on_conn_ok _ self _ _ _ H1)).
  unfold for_range, len. rewrite !Nat2Z.id.
  rewrite (bind_ok _ _ _ _ _ H2).
  rewrite (bind_ok _ _ _ _ _ (on_conn_ok _ _ _ _ _ H4)).
  unfold len. rewrite Nat2Z.id, (bind_ok _ _ _ _ _ H6). reflexivity.
Qed.

(** X10. Frames delimit themselves: when two well-formed frames follow
    each other on the connection, a first [read] decodes the first and
    leaves the connection at the start of the second, which a second
    [read] decodes, into whatever request, leaving what follows it. *)
Theorem read_two_frames :
  forall (f1 f2 : Wire.frame) (self1 self2 : Input.t) (conn : Conn)
         (rest : bytes),
    Wire.well_formed f1 = true ->
    Wire.well_formed f2 = true ->
    delivers conn (Wire.ser_frame f1 ++ Wire.ser_frame f2 ++ rest) ->
    exists c1 c2,
      Input.read (self1, conn) = (Ok tt, (decoded_into f1 self1, c1)) /\
      Input.read (self2, c1) = (Ok tt, (decoded_into f2 self2, c2)) /\
      delivers c2 rest.
Proof.
  intros f1 f2 self1 self2 conn rest W1 W2 H.
  destruct (read_frame f1 self1 conn _ W1 H) as [c1 [E1 D1]].
  destruct (read_frame f2 self2 c1 _ W2 D1) as [c2 [E2 D2]].
  exists c1, c2. auto.
Qed.

Lemma read_two_frames_witness :
  exists c1 c2,
    Input.read
      (Input.init,
       [Wire.ser_frame sample_frame; Wire.ser_frame text_frame ++ [x41]]) =
      (Ok tt, (decoded_into sample_frame Input.init, c1)) /\
    Input.read (Input.init, c1) =
      (Ok tt, (decoded_into text_frame Input.init, c2)) /\
    delivers c2 [x41].
Proof.
  apply (read_two_frames sample_frame text_frame Input.init Input.init
           [Wire.ser_frame sample_frame; Wire.ser_frame text_frame ++ [x41]]
           [x41]).
  - vm_compute. reflexivity.
  - vm_compute. reflexivity.
  - split; vm_compute; reflexivity.
Defined.

Lemma mem_In key d : Dict.mem key d = true <-> In key (keys d).
Proof.
  unfold Dict.mem, keys. rewrite existsb_exists, in_map_iff. split.
  - intros [kv [Hin E]]. apply opt_str_eqb_eq in E. exists kv. auto.
  - intros [kv [E Hin]]. exists kv. split; [exact Hin |].
    apply opt_str_eqb_eq. exact E.
Qed.

Lemma keys_setitem key val d :
  keys (Dict.setitem key val d) =
  if Dict.mem key d then keys d else keys d ++ [key].
Proof.
  induction d as [| [k v] d IH]; simpl.
  - reflexivity.
  - unfold Dict.mem in *. simpl.
    destruct (opt_str_eqb k key); simpl; [reflexivity |].
    rewrite IH. destruct (existsb _ d); reflexivity.
Qed.

Lemma setitem_unique key val d :
  NoDup (keys d) -> NoDup (keys (Dict.setitem key val d)).
Proof.
  intros H. rewrite keys_setitem.
  destruct (Dict.mem key d) eqn:E; [exact H |].
  apply NoDup_app; [exact H | repeat constructor; intros [] |].
  intros k Hin [<- | []]. apply mem_In in Hin. congruence.
Qed.

Lemma assign_all_unique ps : forall d,
  NoDup (keys d) -> NoDup (keys (assign_all ps d)).
Proof.
  induction ps as [| kv ps IH]; intros d H; [exact H |].
  simpl. apply IH, setitem_unique, H.
Qed.

Lemma assign_all_extends ps : forall d,
  exists ks, keys (assign_all ps d) = keys d ++ ks.
Proof.
  induction ps as [| kv ps IH]; intros d.
  - exists []. rewrite app_nil_r. reflexivity.
  - simpl. destruct (IH (Dict.setitem (fst kv) (snd kv) d)) as [ks E].
    rewrite E, keys_setitem. destruct (Dict.mem (fst kv) d).
    + exists ks. reflexivity.
    + exists (fst kv :: ks). rewrite <- app_assoc. reflexivity.
Qed.

(** X11. Whatever the stream and however [read] ends, it keeps the keys of
    [properties] distinct, keeps the keys that the request had, in their
    order, adding new keys only behind them, and keeps the content pairs
    that the request had, adding only behind them. *)
Theorem read_keeps_keys_and_content :
  forall (self : Input.t) (conn : Conn) (r : result unit)
         (self' : Input.t) (conn' : Conn),
    Input.read (self, conn) = (r, (self', conn')) ->
    (NoDup (keys (Input.properties self)) ->
     NoDup (keys (Input.properties self'))) /\
    (exists ks,
       keys (Input.properties self') = keys (Input.properties self) ++ ks) /\
    (exists cs, Input.content self' = Input.content self ++ cs).
Proof.
  intros self conn r self' conn' H.
  assert (F : exists self4,
             filled self self4 /\
             Input.properties self' = Input.properties self4 /\
             Input.content self' = Input.content self4).
  { apply read_outcome in H as [[_ [self4 [F ->]]] | [e [_ [F _]]]].
    - exists self4. auto.
    - exists self'. auto. }
  destruct F as [self4 [[_ [[ps P] [cs C]]] [EP EC]]].
  rewrite EP, EC, P, C. split; [| split].
  - apply assign_all_unique.
  - apply assign_all_extends.
  - exists cs. reflexivity.
Qed.

Lemma read_keeps_keys_and_content_witness :
  NoDup (keys (Input.properties
                 (fst (snd (Input.read (text_request, sample_conn)))))) /\
  (exists ks,
     keys (Input.properties
             (fst (snd (Input.read (text_request, sample_conn))))) =
     keys (Input.properties text_request) ++ ks) /\
  (exists cs,
     Input.content (fst (snd (Input.read (text_request, sample_conn)))) =
     Input.content text_request ++ cs).
Proof.
  destruct (read_keeps_keys_and_content text_request sample_conn
              (fst (Input.read (text_request, sample_conn)))
              (fst (snd (Input.read (text_request, sample_conn))))
              (snd (snd (Input.read (text_request, sample_conn)))))
    as [H1 [H2 H3]].
  - vm_compute. reflexivity.
  - split; [| split; [exact H2 | exact H3]].
    apply H1. vm_compute. repeat constructor. intros [].
Defined.

(** ** [get_property] *)

Lemma first_match_query lower k1 k2 d :
  lower k1 = lower k2 ->
  Input.first_match lower k1 d = Input.first_match lower k2 d.
Proof.
  intros E. induction d as [| [[k |] v] d IH]; simpl.
  - reflexivity.
  - rewrite E, IH. reflexivity.
  - reflexivity.
Qed.

(** X12. [get_property] does not look at the case of the key it is asked
    for: two keys with the same lower-case form get the same answer on
    every request. *)
Theorem get_property_ignores_query_case :
  forall (lower : str -> str) (k1 k2 : str) (self : Input.t),
    lower k1 = lower k2 ->
    Input.get_property lower k1 self = Input.get_property lower k2 self.
Proof.
  intros lower k1 k2 self E. unfold Input.get_property.
  rewrite (first_match_query lower k1 k2 _ E). reflexivity.
Qed.

Lemma get_property_ignores_query_case_witness :
  Input.get_property ascii_lower (py "CONTENT-TYPE") text_request =
  Input.get_property ascii_lower (py "content-type") text_request.
Proof.
  apply (get_property_ignores_query_case ascii_lower
           (py "CONTENT-TYPE") (py "content-type") text_request).
  vm_compute. reflexivity.
Defined.

Lemma first_match_str_keys lower key d :
  str_keys d = true ->
  Input.first_match lower key d =
  Ok (match first_caseless lower key d with
      | Some kv => snd kv
      | None => None
      end).
Proof.
  unfold first_caseless. induction d as [| [[k |] v] d IH]; simpl; intros H.
  - reflexivity.
  - destruct (str_eqb (lower k) (lower key)); [reflexivity | apply IH, H].
  - discriminate.
Qed.

Lemma first_match_raises lower key d e :
  Input.first_match lower key d = Raise e ->
  e = AttributeError /\ Dict.mem None d = true.
Proof.
  unfold Dict.mem. induction d as [| [[k |] v] d IH]; simpl; intros H.
  - discriminate.
  - destruct (str_eqb (lower k) (lower key)); [discriminate | apply IH, H].
  - inversion H. auto.
Qed.

(** X13. When no key of [properties] is [None], [get_property] returns the
    value of the first item, in insertion order, whose key is the asked key
    up to case, and [None] when there is none. It raises nothing but
    [AttributeError], and only on a request that has the key [None]. *)
Theorem get_property_first_caseless :
  forall (lower : str -> str) (key : str) (self : Input.t),
    (str_keys (Input.properties self) = true ->
     Input.get_property lower key self =
       (Ok (match first_caseless lower key (Input.properties self) with
            | Some kv => snd kv
            | None => None
            end), self)) /\
    (forall e self',
       Input.get_property lower key self = (Raise e, self') ->
       e = AttributeError /\
       Dict.mem None (Input.properties self) = true /\ self' = self).
Proof.
  intros lower key self. unfold Input.get_property. split.
  - intros H. rewrite (first_match_str_keys lower key _ H). reflexivity.
  - intros e self' H.
    assert (H1 : Input.first_match lower key (Input.properties self) = Raise e)
      by congruence.
    assert (H2 : self' = self) by congruence.
    apply first_match_raises in H1 as [E1 E2]. repeat split; assumption.
Qed.

Lemma get_property_first_caseless_witness :
  Input.get_property ascii_lower (py "content-type") text_request =
    (Ok (match first_caseless ascii_lower (py "content-type")
                 (Input.properties text_request) with
         | Some kv => snd kv
         | None => None
         end), text_request) /\
  (AttributeError = AttributeError /\
   Dict.mem None [(None, Some (py "v"))] = true /\
   Input.mk None [(None, Some (py "v"))] [] =
   Input.mk None [(None, Some (py "v"))] []).
Proof.
  split.
  - apply (proj1 (get_property_first_caseless ascii_lower
                    (py "content-type") text_request)).
    reflexivity.
  - apply (proj2 (get_property_first_caseless ascii_lower (py "x")
                    (Input.mk None [(None, Some (py "v"))] []))
             AttributeError (Input.mk None [(None, Some (py "v"))] [])).
    reflexivity.
Defined.

Lemma first_match_setitem lower k v q d :
  str_keys d = true ->
  (forall k', In (Some k') (keys d) -> lower k' = lower k -> k' = k) ->
  lower q = lower k ->
  Input.first_match lower q (Dict.setitem (Some k) v d) = Ok v.
Proof.
  intros Hs Hu Hq. induction d as [| [[k0 |] v0] d IH]; simpl in *.
  - rewrite Hq. rewrite (proj2 (str_eqb_eq _ _) eq_refl). reflexivity.
  - destruct (str_eqb k0 k) eqn:E; simpl.
    + apply str_eqb_eq in E. subst k0. rewrite Hq.
      rewrite (proj2 (str_eqb_eq _ _) eq_refl). reflexivity.
    + destruct (str_eqb (lower k0) (lower q)) eqn:E2.
      * apply str_eqb_eq in E2. rewrite Hq in E2.
        rewrite (Hu k0 (or_introl eq_refl) E2) in E.
        rewrite (proj2 (str_eqb_eq _ _) eq_refl) in E. discriminate.
      * apply IH; [exact Hs |]. intros k' Hin. apply Hu. right. exact Hin.
  - discriminate.
Qed.

(** X14. What is assigned is found: after [properties[k] = v], on a
    request with no key [None] and no other key equal to [k] up to case,
    [get_property] returns [v] for [k] written in any case. *)
Theorem get_property_after_assignment :
  forall (lower : str -> str) (k q : str) (v : option str) (self : Input.t),
    str_keys (Input.properties self) = true ->
    (forall k', In (Some k') (keys (Input.properties self)) ->
                lower k' = lower k -> k' = k) ->
    lower q = lower k ->
    Input.get_property lower q
      (Input.set_properties
         (Dict.setitem (Some k) v (Input.properties self)) self) =
    (Ok v,
     Input.set_properties
       (Dict.setitem (Some k) v (Input.properties self)) self).
Proof.
  intros lower k q v self Hs Hu Hq. unfold Input.get_property. simpl.
  rewrite (first_match_setitem lower k v q _ Hs Hu Hq). reflexivity.
Qed.

Lemma get_property_after_assignment_witness :
  Input.get_property ascii_lower (py "HANDLER")
    (Input.set_properties
       (Dict.setitem (Some (py "Handler")) (Some (py "f"))
          (Input.properties text_request)) text_request) =
  (Ok (Some (py "f")),
   Input.set_properties
     (Dict.setitem (Some (py "Handler")) (Some (py "f"))
        (Input.properties text_request)) text_request).
Proof.
  apply (get_property_after_assignment ascii_lower (py "Handler")
           (py "HANDLER") (Some (py "f")) text_request).
  - reflexivity.
  - intros k' [H | []] E. inversion H; subst k'.
    vm_compute in E. discriminate E.
  - vm_compute. reflexivity.
Defined.

(** ** The accessors on empty content, missing keys and decoded frames *)

Lemma get_as_bytes_on_empty key self :
  Input.content self = [] ->
  Input.get_as_bytes key self = (Raise Exception_input_is_empty, self).
Proof.
  intros H. unfold Input.get_as_bytes. rewrite H. reflexivity.
Qed.

Lemma extract_on_empty v key self :
  Input.content self = [] ->
  extract v key self = (Raise Exception_input_is_empty, self).
Proof.
  intros H. destruct v; simpl;
    unfold Input.get_as_numpy, Input.get_as_json, Input.get_as_string,
      Input.get_as_image;
    repeat (apply bind_raise); apply get_as_bytes_on_empty; exact H.
Qed.

(** X15. On a request whose content is empty every accessor raises
    [Exception("input is empty.")], with a key or without: [get_as_bytes],
    [get_as_string], [get_as_json], [get_as_image], [get_as_numpy], and
    [get_data] whatever the content type, once its lookup of the content
    type has returned. None of them returns a value. *)
Theorem accessors_on_empty_content :
  forall (lower : str -> str) (a : accessor) (key : option str)
         (self : Input.t),
    Input.content self = [] ->
    (a = GetData ->
     exists ct,
       Input.get_property lower (py "content-type") self = (Ok ct, self)) ->
    call lower a key self = (Raise Exception_input_is_empty, self).
Proof.
  intros lower a key self H Hct. destruct a; simpl.
  - destruct (Hct eq_refl) as [ct E]. unfold Input.get_property in E.
    rewrite (get_data_route lower key self ct) by congruence.
    apply extract_on_empty. exact H.
  - apply (extract_on_empty RawBytes key self H).
  - apply (extract_on_empty TextPlain key self H).
  - apply (extract_on_empty Json key self H).
  - apply (extract_on_empty Image key self H).
  - apply (extract_on_empty NdList key self H).
Qed.

Lemma accessors_on_empty_content_witness :
  call ascii_lower GetData (Some (py "data"))
    (Input.mk None [(Some (py "Content-Type"), Some (py "image/png"))] []) =
  (Raise Exception_input_is_empty,
   Input.mk None [(Some (py "Content-Type"), Some (py "image/png"))] []).
Proof.
  apply (accessors_on_empty_content ascii_lower GetData (Some (py "data"))
           (Input.mk None
              [(Some (py "Content-Type"), Some (py "image/png"))] [])).
  - reflexivity.
  - intros _. exists (Some (py "image/png")). vm_compute. reflexivity.
Defined.

Lemma get_as_bytes_key self k :
  Input.content self <> [] ->
  Input.get_as_bytes (Some k) self =
  (Ok (first_value k (Input.content self)), self).
Proof.
  intros H. unfold Input.get_as_bytes.
  destruct (Input.content self) as [| p l]; [contradiction |].
  rewrite PairList_get_first. reflexivity.
Qed.

(** X16. A key that no content pair has, on a request whose content is not
    empty: [get_as_bytes] returns [None] and raises nothing;
    [get_as_string] and [get_as_json] raise [AttributeError], from decoding
    [None]; [get_as_image] and [get_as_numpy] hand [None] to the image
    library and to [from_nd_list]. *)
Theorem accessors_on_missing_key :
  forall (self : Input.t) (k : str),
    Input.content self <> [] ->
    first_value k (Input.content self) = None ->
    Input.get_as_bytes (Some k) self = (Ok None, self) /\
    Input.get_as_string (Some k) self = (Raise AttributeError, self) /\
    Input.get_as_json (Some k) self = (Raise AttributeError, self) /\
    Input.get_as_image (Some k) self = (Ok (ImageOpen None), self) /\
    Input.get_as_numpy (Some k) self = (Ok (FromNdList None), self).
Proof.
  intros self k Hne Hk.
  pose proof (get_as_bytes_key self k Hne) as E. rewrite Hk in E.
  unfold Input.get_as_string, Input.get_as_json, Input.get_as_image,
    Input.get_as_numpy.
  rewrite !(bind_ok _ _ _ _ _ E). repeat split. exact E.
Qed.

Lemma accessors_on_missing_key_witness :
  Input.get_as_bytes (Some (py "absent")) text_request = (Ok None, text_request) /\
  Input.get_as_string (Some (py "absent")) text_request =
    (Raise AttributeError, text_request) /\
  Input.get_as_json (Some (py "absent")) text_request =
    (Raise AttributeError, text_request) /\
  Input.get_as_image (Some (py "absent")) text_request =
    (Ok (ImageOpen None), text_request) /\
  Input.get_as_numpy (Some (py "absent")) text_request =
    (Ok (FromNdList None), text_request).
Proof.
  apply (accessors_on_missing_key text_request (py "absent")).
  - vm_compute. discriminate.
  - vm_compute. reflexivity.
Defined.

Lemma get_as_bytes_raises key self e self' :
  Input.get_as_bytes key self = (Raise e, self') ->
  e = Exception_input_is_empty /\ Input.content self = [] /\ self' = self.
Proof.
  unfold Input.get_as_bytes.
  destruct (Input.content self) as [| [k0 v0] l]; simpl.
  - intros H. inversion H. auto.
  - destruct key as [k |]; [intros H; discriminate H |].
    destruct (opt_str_eqb k0 (Some (py "data")));
      [| destruct (PairList.get (py "data") l)];
      intros H; discriminate H.
Qed.

Lemma decode_obj_raises b self e self' :
  Input.decode_obj b self = (Raise e, self') ->
  e = AttributeError \/ e = UnicodeDecodeError.
Proof.
  unfold Input.decode_obj, decode_utf8, raise, ret.
  destruct b as [data |]; [destruct (utf8_decode data) |];
    intros H; inversion H; auto.
Qed.

Lemma get_as_bytes_no_key self :
  Input.content self <> [] ->
  exists v, Input.get_as_bytes None self = (Ok (Some v), self).
Proof.
  intros H. unfold Input.get_as_bytes.
  destruct (Input.content self) as [| [k0 v0] l]; [contradiction |].
  simpl PairList.is_empty. cbv iota.
  destruct (PairList.get (py "data") ((k0, v0) :: l)) as [v |].
  - exists v. reflexivity.
  - exists v0. reflexivity.
Qed.

(** X17. What the two accessors that call no other library can raise.
    [get_as_bytes] raises only [Exception("input is empty.")], and only on
    empty content, so the position 0 that it reads always exists.
    [get_as_string] raises that exception on empty content, and otherwise
    only [AttributeError], when it is given a key that no content pair
    has, or [UnicodeDecodeError], when the bytes it selected are not valid
    UTF-8. The request is the same after the exception. *)
Theorem get_as_bytes_and_string_raise_only :
  forall (key : option str) (self : Input.t) (e : error) (self' : Input.t),
    (Input.get_as_bytes key self = (Raise e, self') ->
     e = Exception_input_is_empty /\ Input.content self = [] /\
     self' = self) /\
    (Input.get_as_string key self = (Raise e, self') ->
     self' = self /\
     ((e = Exception_input_is_empty /\ Input.content self = []) \/
      (e = AttributeError /\ Input.content self <> [] /\
       exists k, key = Some k /\ first_value k (Input.content self) = None) \/
      (e = UnicodeDecodeError /\ Input.content self <> [] /\
       exists data,
         Input.get_as_bytes key self = (Ok (Some data), self) /\
         utf8_decode data = None))).
Proof.
  intros key self e self'. split; [apply get_as_bytes_raises |].
  unfold Input.get_as_string. intros H.
  apply bind_inv in H as [[b [s1 [H1 H]]] | [e0 [H1 E]]].
  - assert (S1 : s1 = self).
    { pose proof (get_as_bytes_state key self) as S. rewrite H1 in S. exact S. }
    subst s1.
    assert (Hne : Input.content self <> []).
    { intros C. rewrite (get_as_bytes_on_empty key self C) in H1.
      discriminate H1. }
    destruct b as [data |]; simpl in H.
    + unfold decode_utf8 in H.
      destruct (utf8_decode data) as [s |] eqn:D; [discriminate H |].
      unfold raise in H.
      assert (Ee : e = UnicodeDecodeError) by congruence.
      assert (Es : self' = self) by congruence.
      subst e self'. split; [reflexivity |].
      right. right. split; [reflexivity |]. split; [exact Hne |].
      exists data. auto.
    + unfold raise in H.
      assert (Ee : e = AttributeError) by congruence.
      assert (Es : self' = self) by congruence.
      subst e self'. split; [reflexivity |].
      right. left. split; [reflexivity |]. split; [exact Hne |].
      destruct key as [k |].
      * exists k. split; [reflexivity |].
        rewrite (get_as_bytes_key self k Hne) in H1. congruence.
      * destruct (get_as_bytes_no_key self Hne) as [v E].
        rewrite E in H1. discriminate H1.
  - inversion E; subst e0.
    apply get_as_bytes_raises in H1 as [-> [C ->]].
    split; [reflexivity |]. left. auto.
Qed.

Lemma get_as_bytes_and_string_raise_only_witness :
  (Exception_input_is_empty = Exception_input_is_empty /\
   Input.content Input.init = [] /\ Input.init = Input.init) /\
  (text_request = text_request /\
   ((AttributeError = Exception_input_is_empty /\
     Input.content text_request = []) \/
    (AttributeError = AttributeError /\ Input.content text_request <> [] /\
     exists k,
       Some (py "absent") = Some k /\
       first_value k (Input.content text_request) = None) \/
    (AttributeError = UnicodeDecodeError /\
     Input.content text_request <> [] /\
     exists data,
       Input.get_as_bytes (Some (py "absent")) text_request =
         (Ok (Some data), text_request) /\
       utf8_decode data = None))).
Proof.
  split.
  - apply (proj1 (get_as_bytes_and_string_raise_only None Input.init
                    Exception_input_is_empty Input.init)).
    reflexivity.
  - apply (proj2 (get_as_bytes_and_string_raise_only (Some (py "absent"))
                    text_request AttributeError text_request)).
    reflexivity.
Defined.

Lemma str_keys_setitem k v d :
  str_keys d = true -> str_keys (Dict.setitem (Some k) v d) = true.
Proof.
  unfold str_keys. induction d as [| [k0 v0] d IH]; simpl; intros H.
  - reflexivity.
  - apply andb_true_iff in H as [H1 H2].
    destruct (opt_str_eqb k0 (Some k)); simpl; rewrite H1; simpl;
      [exact H2 | apply IH, H2].
Qed.

Lemma str_keys_assign_all ps : forall d,
  forallb Wire.prop_ok ps = true ->
  forallb (fun p => match fst p with
                    | Wire.Text _ => true
                    | Wire.Null _ => false
                    end) ps = true ->
  str_keys d = true ->
  str_keys (assign_all (map Wire.decoded_prop ps) d) = true.
Proof.
  induction ps as [| [k v] ps IH]; intros d Hok Ht Hd; [exact Hd |].
  simpl in Hok, Ht. apply andb_true_iff in Hok as [Hp Hok].
  apply andb_true_iff in Ht as [Hk Ht].
  destruct k as [n | payload]; [discriminate |].
  unfold Wire.prop_ok in Hp. simpl in Hp.
  rewrite !andb_true_iff in Hp. destruct Hp as [[_ Hdec] _].
  simpl. unfold Wire.decoded_prop at 1. simpl.
  destruct (utf8_decode payload) as [s |]; [| discriminate].
  apply IH; [exact Hok | exact Ht | apply str_keys_setitem, Hd].
Qed.

(** X18. A well-formed frame in which no property has a null key, decoded
    into a request that has no [None] key, gives a request on which
    [get_property] returns for every key: the lookup that opens [get_data]
    cannot raise. *)
Theorem decoded_frame_lookup_returns :
  forall (f : Wire.frame) (self : Input.t) (conn : Conn) (rest : bytes)
         (lower : str -> str) (key : str),
    Wire.well_formed f = true ->
    text_keys f = true ->
    str_keys (Input.properties self) = true ->
    delivers conn (Wire.ser_frame f ++ rest) ->
    exists self' conn' v,
      Input.read (self, conn) = (Ok tt, (self', conn')) /\
      Input.get_property lower key self' = (Ok v, self').
Proof.
  intros f self conn rest lower key Hwf Ht Hs H.
  destruct (read_frame f self conn rest Hwf H) as [conn' [E _]].
  unfold Wire.well_formed in Hwf. rewrite !andb_true_iff in Hwf.
  destruct Hwf as [[[_ Hps] _] _].
  assert (K : str_keys (Input.properties (decoded_into f self)) = true).
  { simpl. apply str_keys_assign_all; assumption. }
  exists (decoded_into f self), conn'.
  eexists. split; [exact E |].
  unfold Input.get_property.
  rewrite (first_match_str_keys lower key _ K). reflexivity.
Qed.

Lemma decoded_frame_lookup_returns_witness :
  exists self' conn' v,
    Input.read (Input.init, [Wire.ser_frame text_frame]) =
      (Ok tt, (self', conn')) /\
    Input.get_property ascii_lower (py "content-type") self' = (Ok v, self').
Proof.
  apply (decoded_frame_lookup_returns text_frame Input.init
           [Wire.ser_frame text_frame] [] ascii_lower (py "content-type")).
  - vm_compute. reflexivity.
  - reflexivity.
  - reflexivity.
  - split; vm_compute; reflexivity.
Defined.

Lemma assign_all_null_head ps : forall v d,
  exists v' d', assign_all ps ((None, v) :: d) = (None, v') :: d'.
Proof.
  induction ps as [| [k w] ps IH]; intros v d.
  - exists v, d. reflexivity.
  - simpl. destruct k as [k |]; simpl; apply IH.
Qed.

(** X19. A null property key is accepted by the decoder and breaks the
    lookup: when the first property of a well-formed frame has a null key,
    [read] into a new request succeeds, and then [get_property], for every
    key, and [get_data], for every key, raise [AttributeError], whatever
    the other properties are. *)
Theorem null_first_key_breaks_lookup :
  forall (f : Wire.frame) (n : Z) (v : Wire.utf8str)
         (ps : list (Wire.utf8str * Wire.utf8str))
         (conn : Conn) (rest : bytes) (lower : str -> str),
    Wire.well_formed f = true ->
    Wire.props f = (Wire.Null n, v) :: ps ->
    delivers conn (Wire.ser_frame f ++ rest) ->
    exists self' conn',
      Input.read (Input.init, conn) = (Ok tt, (self', conn')) /\
      (forall key,
         Input.get_property lower key self' = (Raise AttributeError, self')) /\
      (forall key,
         Input.get_data lower key self' = (Raise AttributeError, self')).
Proof.
  intros f n v ps conn rest lower Hwf Hp H.
  destruct (read_frame f Input.init conn rest Hwf H) as [conn' [E _]].
  exists (decoded_into f Input.init), conn'. split; [exact E |].
  assert (G : forall key,
            Input.get_property lower key (decoded_into f Input.init) =
            (Raise AttributeError, decoded_into f Input.init)).
  { intros key. unfold Input.get_property. simpl. rewrite Hp. simpl.
    destruct (assign_all_null_head (map Wire.decoded_prop ps)
                (Wire.value v) []) as [v' [d' ->]].
    reflexivity. }
  split; [exact G |].
  intros key. unfold Input.get_data. apply bind_raise. apply G.
Qed.

Lemma null_first_key_breaks_lookup_witness :
  exists self' conn',
    Input.read (Input.init, [Wire.ser_frame null_key_frame]) =
      (Ok tt, (self', conn')) /\
    (forall key,
       Input.get_property ascii_lower key self' =
         (Raise AttributeError, self')) /\
    (forall key,
       Input.get_data ascii_lower key self' = (Raise AttributeError, self')).
Proof.
  apply (null_first_key_breaks_lookup null_key_frame (-1) (wtext "v")
           [(wtext "content-type", wtext "text/plain")]
           [Wire.ser_frame null_key_frame] [] ascii_lower).
  - vm_compute. reflexivity.
  - reflexivity.
  - split; vm_compute; reflexivity.
Defined.

(** ** [is_empty], the errors of the primitives and a closed connection *)

(** X20. [is_empty] tells beforehand whether [get_as_bytes] raises: it
    returns [True] exactly when [get_as_bytes], with any key or none,
    raises [Exception("input is empty.")]; and after a well-formed frame
    has been decoded into a new request it returns [True] exactly when the
    frame has no content pair. *)
Theorem is_empty_guards_get_as_bytes :
  forall (self : Input.t) (key : option str),
    (Input.is_empty self = (Ok true, self) <->
     Input.get_as_bytes key self = (Raise Exception_input_is_empty, self)) /\
    (forall (f : Wire.frame) (conn : Conn) (rest : bytes),
       Wire.well_formed f = true ->
       delivers conn (Wire.ser_frame f ++ rest) ->
       exists self' conn',
         Input.read (Input.init, conn) = (Ok tt, (self', conn')) /\
         Input.is_empty self' =
           (Ok (match Wire.parts f with [] => true | _ :: _ => false end),
            self')).
Proof.
  intros self key. split.
  - unfold Input.is_empty. split.
    + intros H. apply get_as_bytes_on_empty.
      destruct (Input.content self); [reflexivity | discriminate H].
    + intros H. apply get_as_bytes_raises in H as [_ [C _]].
      rewrite C. reflexivity.
  - intros f conn rest Hwf H.
    destruct (read_frame f Input.init conn rest Hwf H) as [conn' [E _]].
    exists (decoded_into f Input.init), conn'. split; [exact E |].
    unfold Input.is_empty. simpl.
    destruct (Wire.parts f); reflexivity.
Qed.

Lemma is_empty_guards_get_as_bytes_witness :
  (Input.is_empty Input.init = (Ok true, Input.init) <->
   Input.get_as_bytes None Input.init =
     (Raise Exception_input_is_empty, Input.init)) /\
  (exists self' conn',
     Input.read (Input.init, [Wire.ser_frame text_frame]) =
       (Ok tt, (self', conn')) /\
     Input.is_empty self' =
       (Ok (match Wire.parts text_frame with [] => true | _ :: _ => false end),
        self')).
Proof.
  destruct (is_empty_guards_get_as_bytes Input.init None) as [H1 H2].
  split; [exact H1 |].
  apply (H2 text_frame [Wire.ser_frame text_frame] []).
  - vm_compute. reflexivity.
  - split; vm_compute; reflexivity.
Defined.

(** X21. On any connection, closed or not, [retrieve_short] and
    [retrieve_int] raise nothing but the disconnection: [struct.unpack]
    always gets the two or four bytes it asks for. [retrieve_utf8] raises
    nothing but the disconnection or the decode error. *)
Theorem primitives_raise_only :
  forall (conn : Conn) (e : error) (conn' : Conn),
    (retrieve_short conn = (Raise e, conn') -> e = ValueError_disconnected) /\
    (retrieve_int conn = (Raise e, conn') -> e = ValueError_disconnected) /\
    (retrieve_utf8 conn = (Raise e, conn') ->
     e = ValueError_disconnected \/ e = UnicodeDecodeError).
Proof.
  intros conn e conn'. split; [| split].
  - apply retrieve_short_raises.
  - apply retrieve_int_raises.
  - apply retrieve_utf8_raises.
Qed.

Lemma primitives_raise_only_witness :
  ValueError_disconnected = ValueError_disconnected /\
  ValueError_disconnected = ValueError_disconnected /\
  (UnicodeDecodeError = ValueError_disconnected \/
   UnicodeDecodeError = UnicodeDecodeError).
Proof.
  split; [| split].
  - apply (proj1 (primitives_raise_only [[x00]] ValueError_disconnected [])).
    reflexivity.
  - apply (proj1 (proj2 (primitives_raise_only [[x00; x00; x00]]
                           ValueError_disconnected []))).
    reflexivity.
  - apply (proj2 (proj2 (primitives_raise_only [[x00; x01; xff]]
                           UnicodeDecodeError []))).
    reflexivity.
Defined.

Lemma loop_zero_read pre : forall n data post,
  live pre = true ->
  len (List.concat pre) < n ->
  retrieve_buffer_loop n data (pre ++ [] :: post) =
    (Raise ValueError_disconnected, post).
Proof.
  induction pre as [| pkt pre IH]; intros n data post Hl H.
  - apply loop_closed; [exact H | reflexivity].
  - apply live_cons in Hl as [Hp Hl]. simpl in H. rewrite len_app in H.
    pose proof (len_nonneg pkt). pose proof (len_nonneg (List.concat pre)).
    simpl.
    rewrite (loop_step _ _ _ pkt (pre ++ [] :: post));
      [| lia | apply recv_whole; lia | exact Hp].
    apply IH; [exact Hl | lia].
Qed.

(** X22. A [recv] that returns no byte before [n] bytes have come makes
    [retrieve_buffer] raise the disconnection at once: the bytes received
    so far are dropped and whatever the connection would still deliver
    afterwards is left unread. *)
Theorem retrieve_buffer_zero_read :
  forall (n : Z) (pre : list bytes) (post : Conn),
    live pre = true ->
    len (List.concat pre) < n ->
    retrieve_buffer n (pre ++ [] :: post) =
      (Raise ValueError_disconnected, post).
Proof.
  intros n pre post Hl H. apply loop_zero_read; assumption.
Qed.

Lemma retrieve_buffer_zero_read_witness :
  retrieve_buffer 3 ([[x01]; [x02]] ++ [] :: [[x03; x04]]) =
    (Raise ValueError_disconnected, [[x03; x04]]).
Proof.
  apply (retrieve_buffer_zero_read 3 [[x01]; [x02]] [[x03; x04]]).
  - reflexivity.
  - reflexivity.
Defined.
